(** * pilcrow: a static site generator

    A shallow embedding of [pilcrow.py] and the properties of its
    normalizer, content parser, page registry, archive derivation and
    asset synchronizer.

    Conventions of the embedding.
    - Python 2 [str] values are [string]s of 8-bit characters; the
      character classes are the ones of the C locale. The text of a
      content file is decoded when it is read and is a [unicode]: a
      [string] of its code points, which the embedding takes below 256.
    - A [Page] is a [dict]: a finite map from attribute names to values.
    - Page objects live in a heap and are passed around by reference, as
      in Python; [prevpost]/[nextpost] and the registry hold references.
    - A computation that can raise returns an [outcome]; [die] raises
      [SystemExit 1] after writing its message to stderr.
    - What the program takes from libraries and from the environment
      (the YAML parser, Markdown, the fuzzy date parser, the local time
      zone, the [lessc] process, the stamp a copied file gets, the
      regular expressions of the site configuration) is a parameter of
      the definitions that use it. *)

From Stdlib Require Import ZArith Ascii String List Lia Bool DecimalString DecimalZ Sorted.
From stdpp Require Import base option list strings gmap fin_maps.

Local Open Scope Z_scope.
Set Warnings "-register-all".

(* ===================================================================== *)
(** * Python values and outcomes *)
(* ===================================================================== *)

(** A naive [datetime]: calendar fields without a zone. *)
Record datetime := Datetime {
  year : Z; month : Z; day : Z; hour : Z; minute : Z; second : Z
}.

(** A reference to a page object. *)
Abbreviation loc := nat.

Inductive value :=
  | VNone
  | VBool (b : bool)
  | VInt (n : Z)
  | VStr (s : string)
  | VTime (t : datetime)
  | VSeq (l : list value)
  | VMap (l : list (string * value))
  | VTuple (l : list string)
  | VRef (r : loc)
  | VRefs (rs : list loc).

#[export] Instance value_inhabited : Inhabited value := populate VNone.

(** Python truth value. A page is a non-empty [dict], a [datetime] is
    always true. *)
Definition truthy (v : value) : bool :=
  match v with
  | VNone => false
  | VBool b => b
  | VInt n => negb (n =? 0)
  | VStr s => negb (String.eqb s "")
  | VTime _ => true
  | VSeq l => negb (bool_decide (l = []))
  | VMap l => match l with [] => false | _ => true end
  | VTuple l => match l with [] => false | _ => true end
  | VRef _ => true
  | VRefs l => match l with [] => false | _ => true end
  end.

(** A number in decimal, filled with zeros on the left up to a width:
    ['%02d' % n] and ['%04d' % n] for a number that is not negative. *)
Definition zfill (width : nat) (n : Z) : string :=
  let digits := NilZero.string_of_int (Z.to_int n) in
  String.concat "" (repeat "0" (width - String.length digits)) +:+ digits.

(** [str(dt)]: the ISO format with a space between the date and the
    time. *)
Definition str_datetime (t : datetime) : string :=
  zfill 4 (year t) +:+ "-" +:+ zfill 2 (month t) +:+ "-" +:+ zfill 2 (day t)
  +:+ " " +:+ zfill 2 (hour t) +:+ ":" +:+ zfill 2 (minute t)
  +:+ ":" +:+ zfill 2 (second t).

(** [str(o)] on what the program formats: [None], booleans, numbers,
    strings and datetimes. *)
Definition py_str (v : value) : string :=
  match v with
  | VNone => "None"
  | VBool true => "True"
  | VBool false => "False"
  | VInt n => NilZero.string_of_int (Z.to_int n)
  | VStr s => s
  | VTime t => str_datetime t
  | _ => ""
  end.

(** ['...%s' % v]: a tuple on the right is the list of arguments and
    must hold exactly one; any other value is formatted with [str]. *)
Definition fmt_s (v : value) : option string :=
  match v with
  | VTuple [x] => Some x
  | VTuple _ => None
  | _ => Some (py_str v)
  end.

(** What a dictionary keys on. Keys are equal when the values are:
    [True == 1] and [False == 0], so a boolean is the key of its number.
    Lists and dictionaries, pages among them, cannot be hashed. *)
Inductive key :=
  | KNone
  | KInt (n : Z)
  | KStr (s : string)
  | KTime (t : datetime)
  | KTuple (l : list string).

(** The key of a value; [None] for a value that cannot be hashed, on
    which a dictionary raises [TypeError]. *)
Definition hash_key (v : value) : option key :=
  match v with
  | VNone => Some KNone
  | VBool b => Some (KInt (if b then 1 else 0))
  | VInt n => Some (KInt n)
  | VStr s => Some (KStr s)
  | VTime t => Some (KTime t)
  | VTuple l => Some (KTuple l)
  | VSeq _ | VMap _ | VRef _ | VRefs _ => None
  end.

#[export] Instance datetime_eq_dec : EqDecision datetime.
Proof. solve_decision. Defined.

#[export] Instance datetime_countable : Countable datetime.
Proof.
  refine (inj_countable'
            (fun t => (year t, month t, day t, hour t, minute t, second t))
            (fun '(y, m, d, h, mi, s) => Datetime y m d h mi s) _).
  by intros [].
Defined.

#[export] Instance key_eq_dec : EqDecision key.
Proof. solve_decision. Defined.

#[export] Instance key_countable : Countable key.
Proof.
  refine (inj_countable'
            (fun k => match k with
                      | KNone => inl (inl tt)
                      | KInt n => inl (inr n)
                      | KStr s => inr (inl s)
                      | KTime t => inr (inr (inl t))
                      | KTuple l => inr (inr (inr l))
                      end)
            (fun x => match x with
                      | inl (inl _) => KNone
                      | inl (inr n) => KInt n
                      | inr (inl s) => KStr s
                      | inr (inr (inl t)) => KTime t
                      | inr (inr (inr l)) => KTuple l
                      end) _).
  by intros [].
Defined.

Inductive exn :=
  | SystemExit (code : Z) (stderr : string)
  | KeyError (key : string)
  | NameError
  | MakoException (msg : string)
  | TypeError
  | AttributeError
  | ValueError
  | OverflowError
  | OSError.

Inductive outcome (A : Type) :=
  | Ok (a : A)
  | Raise (e : exn).
Arguments Ok {A} a.
Arguments Raise {A} e.

(** Sequencing: an exception skips the rest. Written [x ← m; k]. *)
#[export] Instance outcome_bind : MBind outcome := fun A B k m =>
  match m with
  | Ok a => k a
  | Raise e => Raise e
  end.

(** [die]: the message goes to stderr, then [sys.exit(1)]. *)
Definition die {A} (msg : string) : outcome A :=
  Raise (SystemExit 1 (msg +:+ String "010" "")).

(* ===================================================================== *)
(** * String primitives of the Python runtime *)
(* ===================================================================== *)

Definition code (c : ascii) : N := N_of_ascii c.

Definition is_upper (c : ascii) : bool := ((65 <=? code c) && (code c <=? 90))%N.
Definition is_lower (c : ascii) : bool := ((97 <=? code c) && (code c <=? 122))%N.
Definition is_digit (c : ascii) : bool := ((48 <=? code c) && (code c <=? 57))%N.
Definition is_alnum (c : ascii) : bool := is_upper c || is_lower c || is_digit c.

(** Whitespace of [str.split()]: space, \t \n \v \f \r. *)
Definition is_space (c : ascii) : bool :=
  (code c =? 32)%N || ((9 <=? code c) && (code c <=? 13))%N.

(** Whitespace of [unicode.strip()] among the code points below 256:
    the whitespace of [str], the separators U+001C to U+001F, the next
    line U+0085 and the no-break space U+00A0. *)
Definition is_uspace (c : ascii) : bool :=
  is_space c || ((28 <=? code c) && (code c <=? 31))%N
  || (code c =? 133)%N || (code c =? 160)%N.

Definition lower_char (c : ascii) : ascii :=
  if is_upper c then ascii_of_N (code c + 32) else c.

(** [s.lower()] *)
Fixpoint lower (s : string) : string :=
  match s with
  | EmptyString => EmptyString
  | String c s' => String (lower_char c) (lower s')
  end.

Fixpoint str_filter (p : ascii -> bool) (s : string) : string :=
  match s with
  | EmptyString => EmptyString
  | String c s' => if p c then String c (str_filter p s') else str_filter p s'
  end.

Fixpoint str_forall (p : ascii -> bool) (s : string) : bool :=
  match s with
  | EmptyString => true
  | String c s' => p c && str_forall p s'
  end.

Fixpoint str_drop (n : nat) (s : string) : string :=
  match n, s with
  | O, _ => s
  | S n', String _ s' => str_drop n' s'
  | S _, EmptyString => EmptyString
  end.

Fixpoint str_chars (s : string) : list string :=
  match s with
  | EmptyString => []
  | String c s' => String c "" :: str_chars s'
  end.

(** [s.startswith(p)] *)
Fixpoint starts_with (p s : string) : bool :=
  match p, s with
  | EmptyString, _ => true
  | String a p', String b s' => Ascii.eqb a b && starts_with p' s'
  | String _ _, EmptyString => false
  end.

(** [sep in s] *)
Fixpoint contains (sep s : string) : bool :=
  starts_with sep s ||
  match s with
  | EmptyString => false
  | String _ s' => contains sep s'
  end.

(** [s.split(sep)] for a one-character separator: every occurrence
    splits, empty fields are kept. *)
Fixpoint split_char (sep : ascii) (s : string) : list string :=
  match s with
  | EmptyString => [""]
  | String c s' =>
      if Ascii.eqb c sep then "" :: split_char sep s'
      else match split_char sep s' with
           | t :: ts => String c t :: ts
           | [] => [String c ""]
           end
  end.

Definition starts_token (s : string) : bool :=
  match s with
  | EmptyString => false
  | String c _ => negb (is_space c)
  end.

(** [s.split(None)]: maximal runs of non-whitespace characters. *)
Fixpoint split_ws (s : string) : list string :=
  match s with
  | EmptyString => []
  | String c s' =>
      if is_space c then split_ws s'
      else if starts_token s' then
        match split_ws s' with
        | t :: ts => String c t :: ts
        | [] => [String c ""]
        end
      else String c "" :: split_ws s'
  end.

(** The position of the first occurrence of [sep]: the text before it
    and the text after it. *)
Fixpoint partition (sep s : string) : option (string * string) :=
  if starts_with sep s then Some ("", str_drop (String.length sep) s)
  else match s with
       | EmptyString => None
       | String c s' =>
           match partition sep s' with
           | Some (a, b) => Some (String c a, b)
           | None => None
           end
       end.

(** [s.split(sep, 1)] *)
Definition split1 (sep s : string) : list string :=
  match partition sep s with
  | Some (a, b) => [a; b]
  | None => [s]
  end.

(** [s.lstrip()], [s.rstrip()] and [s.strip()] on a [unicode]: the
    program strips the body of a content file and its excerpts, which
    are decoded text. *)
Fixpoint lstrip (s : string) : string :=
  match s with
  | EmptyString => EmptyString
  | String c s' => if is_uspace c then lstrip s' else s
  end.

Fixpoint rstrip (s : string) : string :=
  match s with
  | EmptyString => EmptyString
  | String c s' =>
      match rstrip s' with
      | EmptyString => if is_uspace c then EmptyString else String c EmptyString
      | r => String c r
      end
  end.

Definition strip (s : string) : string := rstrip (lstrip s).

(** ['/'.join(l)] and friends. *)
Fixpoint join (sep : string) (l : list string) : string :=
  match l with
  | [] => ""
  | [x] => x
  | x :: l' => x +:+ sep +:+ join sep l'
  end.

(** [re.sub(cls+, rep, s)] for a character class [cls]: every maximal
    run of characters of the class is replaced by [rep]. *)
Fixpoint sub_runs (cls : ascii -> bool) (rep : string) (in_run : bool) (s : string) : string :=
  match s with
  | EmptyString => EmptyString
  | String c s' =>
      if cls c then
        if in_run then sub_runs cls rep true s'
        else rep +:+ sub_runs cls rep true s'
      else String c (sub_runs cls rep false s')
  end.

(** [re.sub('//+', '/', s)]: a run of two or more slashes becomes one
    slash; a single slash matches nothing and stays. *)
Fixpoint collapse_slashes (s : string) : string :=
  match s with
  | EmptyString => EmptyString
  | String c s' =>
      if Ascii.eqb c "/" && starts_with "/" s' then collapse_slashes s'
      else String c (collapse_slashes s')
  end.

(* ===================================================================== *)
(** * Normalizer *)
(* ===================================================================== *)

(** [alphanum = lambda s: re.sub('[^A-Za-z0-9]', '', s)] *)
Definition alphanum (s : string) : string := str_filter is_alnum s.

Definition dash_or_space (c : ascii) : bool :=
  Ascii.eqb c "-" || Ascii.eqb c " ".

(** [norm_key = lambda s: re.sub('[- ]+', '_', s.lower())] *)
Definition norm_key (s : string) : string :=
  sub_runs dash_or_space "_" false (lower s).

Definition nonempty (s : string) : bool := negb (String.eqb s "").

(** [norm_tags(obj)]:
    tags = is_str(obj) and obj.split(',' in obj and ',' or None) or obj
    return tuple(filter(bool, (alphanum(tag) for tag in tags)))
    When the split is empty (falsy) the [or] falls back to the string
    itself, which is then iterated character by character. A sequence
    is iterated as it is, a mapping by its keys; what cannot be iterated,
    or holds something that is not a string, is a [TypeError]. *)
Definition tags_of_str (s : string) : list string :=
  let parts := if contains "," s then split_char "," s else split_ws s in
  match parts with
  | [] => str_chars s
  | _ => parts
  end.

Fixpoint strs_of (l : list value) : option (list string) :=
  match l with
  | [] => Some []
  | VStr s :: l' => option_map (cons s) (strs_of l')
  | _ :: _ => None
  end.

Definition norm_tags (obj : value) : outcome (list string) :=
  match obj with
  | VStr s => Ok (List.filter nonempty (map alphanum (tags_of_str s)))
  | VSeq l =>
      match strs_of l with
      | Some tags => Ok (List.filter nonempty (map alphanum tags))
      | None => Raise TypeError
      end
  | VTuple tags => Ok (List.filter nonempty (map alphanum tags))
  | VMap l => Ok (List.filter nonempty (map alphanum l.*1))
  | _ => Raise TypeError
  end.

(** The site configuration: the entries the modelled code reads. *)
Record Site := {
  clean_urls : value;
  root : string;
  files_rename : gmap string string;
}.

(** [join_url]:
    ext = (kwargs.get('ext', 1) and not site['clean_urls']) and '.html' or ''
    return re.sub('//+', '/', '/'.join(str(s) for s in parts if s)) + ext *)
Definition join_url (site : Site) (parts : list value) (ext : value) : string :=
  let e := if truthy ext && negb (truthy (clean_urls site)) then ".html" else "" in
  collapse_slashes (join "/" (map py_str (List.filter truthy parts))) +:+ e.



(* ===================================================================== *)
(** * Paths: [os.path.basename], [os.path.splitext], [os.path.join] *)
(* ===================================================================== *)

(** [s.rfind(c)]: the last index of [c], or -1. *)
Fixpoint rfind (c : ascii) (s : string) : Z :=
  match s with
  | EmptyString => -1
  | String a s' =>
      let r := rfind c s' in
      if 0 <=? r then r + 1 else if Ascii.eqb a c then 0 else -1
  end.

Fixpoint str_take (n : nat) (s : string) : string :=
  match n, s with
  | O, _ => EmptyString
  | S n', String c s' => String c (str_take n' s')
  | S _, EmptyString => EmptyString
  end.

(** [posixpath.basename]: i = p.rfind('/') + 1; return p[i:] *)
Definition basename (p : string) : string :=
  str_drop (Z.to_nat (rfind "/" p + 1)) p.

Definition is_dot (c : ascii) : bool := Ascii.eqb c ".".

(** [posixpath.splitext]: the extension starts at the last dot of the
    last component, unless only dots precede it there. *)
Definition splitext (p : string) : string * string :=
  let sepIndex := rfind "/" p in
  let dotIndex := rfind "." p in
  if sepIndex <? dotIndex then
    let lead := str_take (Z.to_nat (dotIndex - (sepIndex + 1)))
                         (str_drop (Z.to_nat (sepIndex + 1)) p) in
    if str_forall is_dot lead then (p, "")
    else (str_take (Z.to_nat dotIndex) p, str_drop (Z.to_nat dotIndex) p)
  else (p, "").

Definition ends_with_slash (s : string) : bool :=
  match String.rev s with
  | String c _ => Ascii.eqb c "/"
  | EmptyString => false
  end.

(** [posixpath.join(a, b)] *)
Definition path_join (a b : string) : string :=
  if starts_with "/" b then b
  else if String.eqb a "" || ends_with_slash a then a +:+ b
  else a +:+ "/" +:+ b.

(* ===================================================================== *)
(** * Time *)
(* ===================================================================== *)

(** Days from 1970-01-01 to a date of the proleptic Gregorian calendar. *)
Definition days_from_civil (y m d : Z) : Z :=
  let y' := if m <=? 2 then y - 1 else y in
  let era := y' / 400 in
  let yoe := y' - era * 400 in
  let mp := if 2 <? m then m - 3 else m + 9 in
  let doy := (153 * mp + 2) / 5 + d - 1 in
  let doe := yoe * 365 + yoe / 4 - yoe / 100 + doy in
  era * 146097 + doe - 719468.

Definition utc_seconds (t : datetime) : Z :=
  days_from_civil (year t) (month t) (day t) * 86400
  + hour t * 3600 + minute t * 60 + second t.

Definition month_names : list string :=
  ["January"; "February"; "March"; "April"; "May"; "June"; "July";
   "August"; "September"; "October"; "November"; "December"].

(** [dt.strftime('%B')]. Python 2 refuses years before 1900. *)
Definition strftime_B (t : datetime) : outcome string :=
  if year t <? 1900 then Raise ValueError
  else Ok (month_names !!! Z.to_nat (month t - 1)).

(* ===================================================================== *)
(** * Pages, the heap and the registry *)
(* ===================================================================== *)

(** A page is a [dict] from attribute names to values. *)
Abbreviation Page := (gmap string value).

(** [self.name] is [self[name]]. [Page.__init__] installs [date],
    [posted], [id], [title] and [template], and no key is ever removed,
    so reading these never misses. *)
Definition attr (p : Page) (name : string) : value := p !!! name.

(** The text of an id that is a string. [Page.__init__] stores
    [str(id)] and the rewrite of a dated page stores the text [join_url]
    returns; only an [id] key in the front matter of an undated page can
    put another value there, and then [build] stops at
    [os.path.dirname(p.id)] before any page is listed or rendered. *)
Definition page_id (p : Page) : string :=
  match attr p "id" with
  | VStr s => s
  | _ => ""
  end.

(** The [url] property:
    id = self.id; return join_url(site['root'], id != 'index' and id) *)
Definition url (site : Site) (p : Page) : string :=
  join_url site
    [VStr (root site);
     if String.eqb (page_id p) "index" then VBool false else VStr (page_id p)]
    (VInt 1).

(** [dict.update] with the pairs in the order given. *)
Definition update (l : list (string * value)) (p : Page) : Page :=
  fold_left (fun q kv => <[kv.1 := kv.2]> q) l p.

(** [Page.__init__(self, id, attrs, kwargs)]: the five base attributes,
    then self.update(attrs) and self.update(kwargs). *)
Definition Page_init (id : value) (attrs kwargs : list (string * value)) : Page :=
  let base : Page :=
    <["date" := VNone]> (<["posted" := VNone]> (<["id" := VStr (py_str id)]>
      (<["title" := VStr ""]> (<["template" := VStr ""]> ∅)))) in
  update kwargs (update attrs base).

(** The program state: the page objects, and [PageManager.pages]. *)
Record state := State {
  heap : list Page;
  pages : gmap key loc;
}.

(** Computations over the state that can raise. An exception leaves the
    state as it was when it was raised. *)
Definition M (A : Type) : Type := state -> outcome A * state.

#[export] Instance M_ret : MRet M := fun A a st => (Ok a, st).
#[export] Instance M_bind : MBind M := fun A B k m st =>
  match m st with
  | (Ok a, st') => k a st'
  | (Raise e, st') => (Raise e, st')
  end.

Definition lift {A} (o : outcome A) : M A := fun st => (o, st).

Definition deref (st : state) (l : loc) : Page := heap st !!! l.

(** A new object. *)
Definition alloc (p : Page) : M loc := fun st =>
  (Ok (length (heap st)), State (heap st ++ [p]) (pages st)).

(** [obj[key] = v] on the object behind a reference. *)
Definition set_item (l : loc) (key : string) (v : value) : M unit := fun st =>
  (Ok tt, State (<[l := <[key := v]> (deref st l)]> (heap st)) (pages st)).

(** [die('duplicate page id: %s' % id)] *)
Definition duplicate_id {A} (id : value) : outcome A :=
  match fmt_s id with
  | Some text => die ("duplicate page id: " +:+ text)
  | None => Raise TypeError
  end.

(** [PageManager.add]:
    if page.id in self.pages: die('duplicate page id: %s' % page.id)
    self.pages[page.id] = page
    The dictionary keys on the id itself, whatever its type; an id that
    cannot be hashed is a [TypeError]. *)
Definition add (page : loc) : M unit := fun st =>
  let id := attr (deref st page) "id" in
  match hash_key id with
  | None => (Raise TypeError, st)
  | Some k =>
      match pages st !! k with
      | Some _ => (duplicate_id id, st)
      | None => (Ok tt, State (heap st) (<[k := page]> (pages st)))
      end
  end.

(** [PageManager.__getitem__]: return self.pages[id], for the text that
    [site['get']] passes. *)
Definition getitem (st : state) (id : string) : outcome loc :=
  match pages st !! KStr id with
  | Some l => Ok l
  | None => Raise (KeyError id)
  end.

(** [site['get'] = lambda id: pages[str(id)]] *)
Definition site_get (st : state) (id : value) : outcome loc :=
  getitem st (py_str id).

(** In [PageManager.render]:
    try: ... template.render_unicode( ** vars) ...
    except NameError: die('template error: undefined variable in', filename) *)
Definition render_try {A} (filename : string) (r : outcome A) : outcome A :=
  match r with
  | Raise NameError =>
      die ("template error: undefined variable in " +:+ filename)
  | _ => r
  end.

(** In [build]:
    try: pages.render()
    except MakoException as e: die('template error:', e) *)
Definition build_try {A} (r : outcome A) : outcome A :=
  match r with
  | Raise (MakoException msg) => die ("template error: " +:+ msg)
  | _ => r
  end.

(** [sorted(l, key=...)]: a stable sort; equal keys keep their order. *)
Fixpoint insert_by {A} (le : A -> A -> bool) (x : A) (l : list A) : list A :=
  match l with
  | [] => [x]
  | y :: l' => if le x y then x :: l else y :: insert_by le x l'
  end.

Definition sorted_by {A} (le : A -> A -> bool) (l : list A) : list A :=
  fold_right (insert_by le) [] l.

(** Order of the sort keys, pairs of a timestamp and an id. *)
Definition key_le (a b : Z * string) : bool :=
  (a.1 <? b.1) || ((a.1 =? b.1) && String.leb a.2 b.2).

Definition key_lt (a b : Z * string) : bool :=
  (a.1 <? b.1) || ((a.1 =? b.1) && String.ltb a.2 b.2).

(** [neighbours(iterable)]:
    L = list(iterable); a = [None] + L[:-1]; b = L[1:] + [None]
    return izip(a, L, b) *)
Definition neighbours {A} (L : list A) : list (option A * A * option A) :=
  let a := None :: map Some (removelast L) in
  let b := map Some (tail L) ++ [None] in
  zip (zip a L) b.

Definition ref_or_none (o : option loc) : value :=
  match o with
  | Some l => VRef l
  | None => VNone
  end.

(** [tuple(results)[:limit]] *)
Definition slice_limit {A} (limit : option Z) (l : list A) : list A :=
  match limit with
  | None => l
  | Some n => if 0 <=? n then take (Z.to_nat n) l
              else take (length l - Z.to_nat (- n)) l
  end.

Section Build.

(** The local zone: its offset from UTC, in seconds, at a local time. *)
Variable utcoffset : datetime -> Z.

(** [yaml.load], [markdown] and
    [dateutil.parser.parse(str(s), fuzzy=True)]. *)
Variable yaml_load : string -> value.
Variable markdown : string -> string.
Variable parse_time : value -> outcome datetime.

(** [time.mktime(dt.timetuple())] *)
Definition mktime (t : datetime) : Z := utc_seconds t - utcoffset t.

(** [timestamp = lambda dt: dt and int(time.mktime(dt.timetuple())) or 0];
    the values it is applied to are [None] or a [datetime]. *)
Definition timestamp (dt : value) : Z :=
  match dt with
  | VTime t => mktime t
  | _ => 0
  end.

(** [sortkey_origin = lambda self: (timestamp(self.date), self.id)] *)
Definition sortkey_origin (p : Page) : Z * string :=
  (timestamp (attr p "date"), page_id p).

(** [sortkey_posted =
     lambda self: (timestamp(self.posted or self.date), self.id)] *)
Definition sortkey_posted (p : Page) : Z * string :=
  (timestamp (if truthy (attr p "posted") then attr p "posted"
              else attr p "date"),
   page_id p).

(** [norm_time = lambda s: s and dateutil.parser.parse(...) or None] *)
Definition norm_time (s : value) : outcome value :=
  if truthy s then t ← parse_time s; Ok (VTime t) else Ok VNone.

(** [ContentPage.NORM.get(key, identity)(val)] *)
Definition normalize (key : string) (val : value) : outcome value :=
  if decide (key = "date" \/ key = "posted") then norm_time val
  else if decide (key = "tags" \/ key = "category") then
    tags ← norm_tags val; Ok (VTuple tags)
  else if decide (key = "summary") then
    match val with
    | VStr s => Ok (VStr (markdown s))
    | _ => Raise AttributeError
    end
  else Ok val.

(** for key, val in head.items():
      key = norm_key(key); self[key] = self.NORM.get(key, identity)(val) *)
Fixpoint apply_head (items : list (string * value)) (self : Page) : outcome Page :=
  match items with
  | [] => Ok self
  | (key, val) :: rest =>
      let key := norm_key key in
      v ← normalize key val;
      apply_head rest (<[key := v]> self)
  end.

(** [head.items()]: only a mapping has items. *)
Definition items_of (head : value) : outcome (list (string * value)) :=
  match head with
  | VMap l => Ok l
  | _ => Raise AttributeError
  end.

(** [SUMMARY.sub(_summary, body)] with
    SUMMARY = re.compile('(<summary>)(.*?)(</summary>)', re.DOTALL):
    every marked excerpt is replaced by its stripped inner text, and
    [_summary] stores the Markdown of the last one as [summary]. *)
Fixpoint summary_sub (fuel : nat) (body : string) (self : Page) : string * Page :=
  match fuel with
  | O => (body, self)
  | S fuel' =>
      match partition "<summary>" body with
      | None => (body, self)
      | Some (before, rest) =>
          match partition "</summary>" rest with
          | None => (body, self)
          | Some (inner, after) =>
              let summary := strip inner in
              let '(tail, self') :=
                summary_sub fuel' after (<["summary" := VStr (markdown summary)]> self) in
              (before +:+ summary +:+ tail, self')
          end
      end
  end.

(** The dated rewrite:
    if self.date: self.update({'id': join_url(self.date.year, id, ext=False),
      'template': self.template or 'entry',
      'month_name': self.date.strftime('%B'),
      'prevpost': None, 'nextpost': None}) *)
Definition dated_update (site : Site) (id : string) (self : Page) : outcome Page :=
  if truthy (attr self "date") then
    match attr self "date" with
    | VTime t =>
        mn ← strftime_B t;
        Ok (update [("id", VStr (join_url site [VInt (year t); VStr id] (VBool false)));
                    ("template", if truthy (attr self "template")
                                 then attr self "template" else VStr "entry");
                    ("month_name", VStr mn);
                    ("prevpost", VNone);
                    ("nextpost", VNone)] self)
    | _ => Raise AttributeError
    end
  else Ok self.

(** The two halves of [fp.read().split('\n\n', 1)]:
    head text is data.pop(0); body = data and data.pop() or ''. *)
Definition blank_line : string := String "010" (String "010" "").

Definition head_and_body (text : string) : string * string :=
  match split1 blank_line text with
  | [h] => (h, "")
  | h :: b :: _ => (h, b)
  | [] => ("", "")
  end.

(** [ContentPage.__init__(self, fp)], from the name, the modification
    time and the text of the file. *)
Definition ContentPage (site : Site) (name : string) (mtime : datetime)
    (text : string) : outcome Page :=
  let id := (splitext (basename name)).1 in
  let self := Page_init (VStr id) [] [("modified", VTime mtime)] in
  let '(head_text, body) := head_and_body text in
  items ← items_of (yaml_load head_text);
  self ← apply_head items self;
  self ← dated_update site id self;
  let '(body', self) := summary_sub (String.length body) body self in
  Ok (<["content" := VStr (markdown (strip body'))]> self).

(** ['%02d' % month] *)
Definition fmt_02d (n : Z) : string :=
  if (0 <=? n) && (n <? 10) then "0" +:+ py_str (VInt n) else py_str (VInt n).

(** A number that fits a C [int]. *)
Definition fits_int (n : Z) : bool :=
  (-2147483648 <=? n) && (n <=? 2147483647).

(** [datetime(year, month, 1).strftime('%B %Y')]: the constructor takes
    its arguments as C integers ([OverflowError] for one that does not
    fit) and checks the ranges of the year, 1 to 9999, and of the month
    ([ValueError]); Python 2 formats no year before 1900
    ([ValueError]). *)
Definition strftime_BY (y m : Z) : outcome string :=
  if negb (fits_int y && fits_int m) then Raise OverflowError
  else if negb ((1 <=? y) && (y <=? 9999) && (1 <=? m) && (m <=? 12))
  then Raise ValueError
  else if y <? 1900 then Raise ValueError
  else Ok (month_names !!! Z.to_nat (m - 1) +:+ " " +:+ py_str (VInt y)).

(** [ArchivePage.__init__(self, entries, year, month=0)]:
    id = join_url(year, month and '%02d' % month, ext=False)
    template: 'archive_%s' % (month and 'month' or 'year')
    title: month and datetime(year, month, 1).strftime('%B %Y') or year *)
Definition ArchivePage (site : Site) (entries : list loc) (y m : Z) : outcome Page :=
  let id := join_url site
              [VInt y; if negb (m =? 0) then VStr (fmt_02d m) else VInt m]
              (VBool false) in
  title ← (if negb (m =? 0) then t ← strftime_BY y m; Ok (VStr t) else Ok (VInt y));
  Ok (Page_init (VStr id)
        [("entries", VRefs entries);
         ("year", VInt y);
         ("month", VInt m);
         ("template", VStr ("archive_" +:+ (if negb (m =? 0) then "month" else "year")));
         ("title", title)]
        []).

(** The archive page of a year, as [build] makes it: [month] is 0. *)
Definition year_archive (site : Site) (entries : list loc) (y : Z) : Page :=
  Page_init (VStr (join_url site [VInt y; VInt 0] (VBool false)))
    [("entries", VRefs entries);
     ("year", VInt y);
     ("month", VInt 0);
     ("template", VStr "archive_year");
     ("title", VInt y)]
    [].

(** [PageManager.all(sortby_origin)]:
    sortkey = sortby_origin and Page.sortkey_origin or Page.sortkey_posted
    return sorted(self.pages.values(), key=sortkey) *)
Definition all (st : state) (sortby_origin : bool) : list loc :=
  let sortkey := if sortby_origin then sortkey_origin else sortkey_posted in
  sorted_by (fun a b => key_le (sortkey (deref st a)) (sortkey (deref st b)))
            ((map_to_list (pages st)).*2).

(** [select(limit=None, dated=True, chrono=False, sortby_origin=None)] *)
Definition select (st : state) (limit : option Z) (dated chrono : bool)
    (sortby_origin : option bool) : list loc :=
  let sortby_origin := default chrono sortby_origin in
  let results := all st sortby_origin in
  let results := if negb chrono then rev results else results in
  let results :=
    if dated then List.filter (fun l => truthy (attr (deref st l) "date")) results
    else results in
  slice_limit limit results.

(** for prevpost, post, nextpost in neighbours(posts):
      post['prevpost'], post['nextpost'] = prevpost, nextpost *)
Fixpoint link_posts (triples : list (option loc * loc * option loc)) : M unit :=
  match triples with
  | [] => mret tt
  | (prevpost, post, nextpost) :: rest =>
      _ ← set_item post "prevpost" (ref_or_none prevpost);
      _ ← set_item post "nextpost" (ref_or_none nextpost);
      link_posts rest
  end.

(** One turn of the loop over the years:
    posts = sorted(posts, key=Page.sortkey_origin)
    pages.add(ArchivePage(posts, year))
    then the links. *)
Definition archive_year (site : Site) (y : Z) (posts : list loc) : M unit :=
  fun st =>
    let posts := sorted_by (fun a b => key_le (sortkey_origin (deref st a))
                                              (sortkey_origin (deref st b))) posts in
    (page ← lift (ArchivePage site posts y 0);
     archive ← alloc page;
     _ ← add archive;
     link_posts (neighbours posts)) st.

Fixpoint archive_years (site : Site) (l : list (Z * list loc)) : M unit :=
  match l with
  | [] => mret tt
  | (y, posts) :: rest =>
      _ ← archive_year site y posts;
      archive_years site rest
  end.

(** for year, posts in sorted(years.items()): ... *)
Definition derive_archives (site : Site) (years : gmap Z (list loc)) : M unit :=
  archive_years site
    (sorted_by (fun a b => a.1 <=? b.1) (map_to_list years)).

(** The body of the content loop of [build]:
    page = ContentPage(fp); pages.add(page)
    if page.date: years[page.date.year].append(page)
    The date of a content page is [None] or a [datetime]. *)
Definition load_page (site : Site) (name : string) (mtime : datetime)
    (text : string) (years : gmap Z (list loc)) : M (gmap Z (list loc)) :=
  self ← lift (ContentPage site name mtime text);
  page ← alloc self;
  _ ← add page;
  match attr self "date" with
  | VTime t => mret (<[year t := default [] (years !! year t) ++ [page]]> years)
  | _ => mret years
  end.

End Build.

(* ===================================================================== *)
(** * Asset synchronizer *)
(* ===================================================================== *)

(** A regular file: its modification time, as [os.path.getmtime]
    reports it, and its bytes. The stamps are points of a linear scale;
    the program only compares them. *)
Record file := File { mtime : Z; content : string }.

(** The file system: the regular files by path. Directories are not
    part of the model; [mkdir] creates the mirrored directory before the
    files of a directory are visited and does not decide which files are
    processed. *)
Abbreviation files := (gmap string file).

Section Sync.

(** [re.compile(site['files_exclude']).match] and
    [re.compile(site['files_include']).match] as predicates. *)
Variable excludes : string -> bool.
Variable includes : string -> bool.

(** The [lessc] process on the text of a source: the stylesheet it
    writes, or the output it prints when its status is not zero. *)
Variable lessc : string -> string + string.

(** The stamp [shutil.copy2] leaves on the copy of a file stamped [t]:
    [copystat] hands the stamp it read to [os.utime], which cuts it to
    whole microseconds in Python 2, and the file system keeps what its
    own resolution allows. *)
Variable utime : Z -> Z.

Variable site : Site.
Variable deploy_path : string.

Definition skipped (fname : string) : bool :=
  excludes fname && negb (includes fname).

Definition src_of (e : string * string) : string := path_join e.1 e.2.

(** dest = path.join(deploy_path, root, fname)
    ext = path.splitext(fname)[1]
    if ext in site['files_rename']:
        dest = path.splitext(dest)[0] + site['files_rename'][ext] *)
Definition dest_of (e : string * string) : string :=
  let dest := path_join (path_join deploy_path e.1) e.2 in
  match files_rename site !! (splitext e.2).2 with
  | Some ext' => (splitext dest).1 +:+ ext'
  | None => dest
  end.

(** [FILES_ACTIONS.get(ext, shutil.copy2)(src, dest)] at clock [now]:
    [lessc] writes its destination now, or the build dies with its
    output; [copy2] copies the bytes and stamps the copy with the time
    of the source, as far as [os.utime] keeps it. *)
Definition run_action (now : Z) (ext : string) (s : file) (dest : string)
    (fs : files) : outcome files :=
  if decide (ext = ".less") then
    match lessc (content s) with
    | inl css => Ok (<[dest := File now css]> fs)
    | inr output => die output
    end
  else Ok (<[dest := File (utime (mtime s)) (content s)]> fs).

(** The body of the loop over the files of a directory. The second
    component is what is printed: one line per file processed. The
    walk lists files that exist; reading the time of one that does not
    is an [OSError]. *)
Definition sync_file (now : Z) (e : string * string) (fs : files)
    : outcome (files * list (string * string)) :=
  if skipped e.2 then Ok (fs, [])
  else
    let src := src_of e in
    let dest := dest_of e in
    let ext := (splitext e.2).2 in
    match fs !! src with
    | None => Raise OSError
    | Some s =>
        let fresh :=
          match fs !! dest with
          | Some d => mtime s <=? mtime d
          | None => false
          end in
        if fresh then Ok (fs, [])
        else fs' ← run_action now ext s dest fs; Ok (fs', [(src, dest)])
    end.

Fixpoint sync_files (now : Z) (l : list (string * string)) (fs : files)
    : outcome (files * list (string * string)) :=
  match l with
  | [] => Ok (fs, [])
  | e :: rest =>
      '(fs1, out1) ← sync_file now e fs;
      '(fs2, out2) ← sync_files now rest fs1;
      Ok (fs2, out1 ++ out2)
  end.

(** for root, _, files in os.walk(os.curdir): for fname in files: ... *)
Definition sync (now : Z) (walk : list (string * list string)) (fs : files)
    : outcome (files * list (string * string)) :=
  sync_files now (walk ≫= fun '(root, names) => map (pair root) names) fs.

End Sync.

(** The characters [norm_key] leaves none of: upper-case letters,
    hyphens and spaces. *)
Definition key_char (c : ascii) : bool :=
  negb (is_upper c) && negb (dash_or_space c).

(** What the specification says of [normTags] on a string: split on
    commas if a comma is present, else on whitespace; strip what is not
    a letter or digit from each token; drop the empty results. *)
Definition normTags_spec (s : string) : list string :=
  List.filter nonempty
    (map alphanum (if contains "," s then split_char "," s else split_ws s)).

(* ===================================================================== *)
(** * Sample data *)
(* ===================================================================== *)

Definition clean_site : Site :=
  {| clean_urls := VBool true; root := "/"; files_rename := ∅ |}.

(** The built-in defaults: clean_urls: no; files_rename: .less to .css. *)
Definition default_site : Site :=
  {| clean_urls := VBool false; root := "/";
     files_rename := {[ ".less" := ".css" ]} |}.

(** Three page objects with the id [a]; the first is registered. *)
Definition taken_registry : state :=
  State [Page_init (VStr "a") [] []; Page_init (VStr "a") [] [];
         Page_init (VStr "a") [] []]
        {[ KStr "a" := 0%nat ]}.

Definition empty_registry : state := State [Page_init (VStr "a") [] []] ∅.

(** Two page objects with the id [a], neither registered yet. *)
Definition two_pages : state :=
  State [Page_init (VStr "a") [("title", VStr "First")] [];
         Page_init (VStr "a") [("title", VStr "Second")] []]
        ∅.

(** A front matter reader for one text, and Markdown left as the
    identity: stand-ins for the two libraries in the examples. *)
Definition sample_yaml (s : string) : value :=
  if String.eqb s "title: Hello" then VMap [("title", VStr "Hello")]
  else if String.eqb s "date: 2020-01-01"
  then VMap [("date", VStr "2020-01-01")]
  else VNone.

Definition sample_parse_time (v : value) : outcome datetime :=
  match v with
  | VStr "2020-01-01" => Ok (Datetime 2020 1 1 0 0 0)
  | _ => Raise ValueError
  end.

Definition epoch : datetime := Datetime 1970 1 1 0 0 0.


(** A text without a slash. *)
Definition no_slash (s : string) : bool :=
  str_forall (fun c => negb (Ascii.eqb c "/")) s.


(** The three dates of the listing example. *)
Definition date_2020_01_01 : datetime := Datetime 2020 1 1 0 0 0.
Definition date_2020_06_01 : datetime := Datetime 2020 6 1 0 0 0.
Definition date_2021_01_01 : datetime := Datetime 2021 1 1 0 0 0.

(** [page.date] is true. *)
Definition dated (st : state) (l : loc) : bool :=
  truthy (attr (deref st l) "date").

Definition dated_page (id : string) (t : datetime) : Page :=
  <["date" := VTime t]> (Page_init (VStr id) [] []).

(** A registry with the three dated pages, filed in no particular
    order, and an undated one. *)
Definition listing_registry : state :=
  State [dated_page "2020/b" date_2020_06_01;
         Page_init (VStr "about") [] [];
         dated_page "2021/c" date_2021_01_01;
         dated_page "2020/a" date_2020_01_01]
        {[ KStr "2020/b" := 0%nat; KStr "about" := 1%nat;
           KStr "2021/c" := 2%nat; KStr "2020/a" := 3%nat ]}.

Definition utc : datetime -> Z := fun _ => 0.

(** The registry of the listing example with the oldest page posted
    again in 2022. *)
Definition reposted_registry : state :=
  State [dated_page "2020/b" date_2020_06_01;
         Page_init (VStr "about") [] [];
         dated_page "2021/c" date_2021_01_01;
         <["posted" := VTime (Datetime 2022 1 1 0 0 0)]>
           (dated_page "2020/a" date_2020_01_01)]
        {[ KStr "2020/b" := 0%nat; KStr "about" := 1%nat;
           KStr "2021/c" := 2%nat; KStr "2020/a" := 3%nat ]}.

(** [None] or a [datetime]: what [norm_time] returns. *)
Definition time_or_none (v : value) : Prop :=
  v = VNone \/ exists t : datetime, v = VTime t.

(** The posted date of a page, as the moment it stands for: the time
    under [posted] when there is one, else the time under [date]; 0 for
    a page that has neither. *)
Definition posted_time (utcoffset : datetime -> Z) (p : Page) : Z :=
  match attr p "posted", attr p "date" with
  | VTime t, _ => mktime utcoffset t
  | _, VTime t => mktime utcoffset t
  | _, _ => 0
  end.

(** A listing by falling posted date: no page comes before one that was
    posted later. *)
Definition newest_posted_first (utcoffset : datetime -> Z) (st : state)
    (l : list loc) : Prop :=
  StronglySorted
    (fun a b => posted_time utcoffset (deref st b) <= posted_time utcoffset (deref st a))
    l.


(** The id of the archive page of a year. *)
Definition archive_id (site : Site) (y : Z) : string :=
  join_url site [VInt y; VInt 0] (VBool false).

Definition post_of (t : option loc * loc * option loc) : loc := t.1.2.

(** The links of a chain of three posts. *)
Definition chained (st : state) (p1 p2 p3 : loc) : Prop :=
  attr (deref st p1) "prevpost" = VNone
  /\ attr (deref st p1) "nextpost" = VRef p2
  /\ attr (deref st p2) "prevpost" = VRef p1
  /\ attr (deref st p2) "nextpost" = VRef p3
  /\ attr (deref st p3) "prevpost" = VRef p2
  /\ attr (deref st p3) "nextpost" = VNone.


(** Three posts of 2020, filed out of order, before the archives are
    derived. *)
Definition posts_2020 : state :=
  State [dated_page "2020/b" date_2020_06_01;
         dated_page "2020/c" (Datetime 2020 12 24 0 0 0);
         dated_page "2020/a" date_2020_01_01]
        {[ KStr "2020/b" := 0%nat; KStr "2020/c" := 1%nat; KStr "2020/a" := 2%nat ]}.

Definition years_2020 : gmap Z (list loc) := {[ 2020 := [0%nat; 1%nat; 2%nat] ]}.


(** A file is up to date when the loop skips it: its name is excluded,
    or its destination exists and is not older than it. *)
Definition up_to_date (excludes includes : string -> bool) (site : Site)
    (deploy_path : string) (fs : files) (e : string * string) : Prop :=
  skipped excludes includes e.2 = true
  \/ exists s d, fs !! src_of e = Some s
                 /\ fs !! dest_of site deploy_path e = Some d
                 /\ mtime s <= mtime d.

(** The files the walk visits, directory by directory. *)
Definition entries (walk : list (string * list string)) : list (string * string) :=
  walk ≫= fun '(root, names) => map (pair root) names.

(** A stylesheet source stamped later than the clock of the run. *)
Definition future_less : files := {[ "./style.less" := File 200 "a { }" ]}.

Definition copy_only : files := {[ "./robots.txt" := File 50 "User-agent: *" ]}.

(** A copy that keeps the thousands of a stamp and drops the rest, as
    [os.utime] does with a stamp counted in nanoseconds. *)
Definition whole_thousands (t : Z) : Z := t / 1000 * 1000.

(** A file to copy, stamped in whole thousands, and a stylesheet source
    stamped before the clock of the run. *)
Definition assets : files :=
  {[ "./robots.txt" := File 50000 "User-agent: *";
     "./style.less" := File 60000 "a { }" ]}.

Definition no_match : string -> bool := fun _ => false.

Definition lessc_same : string -> string + string := inl.


(** The year lists hold references to existing objects, and no object is
    filed under two years. *)
Definition filed (years : gmap Z (list loc)) (n : nat) : Prop :=
  (forall y ps l, years !! y = Some ps -> l ∈ ps -> (l < n)%nat)
  /\ (forall y y' ps ps' l, y <> y' ->
        years !! y = Some ps -> years !! y' = Some ps' -> l ∈ ps -> l ∉ ps').


(* ===================================================================== *)
(** * Definitions for the further properties *)
(* ===================================================================== *)

(** [s] with every character replaced by its image. *)
Fixpoint str_map (f : ascii -> ascii) (s : string) : string :=
  match s with
  | EmptyString => EmptyString
  | String c s' => String (f c) (str_map f s')
  end.

(** A hyphen written as a space. *)
Definition hyphen_to_space (c : ascii) : ascii :=
  if Ascii.eqb c "-" then " "%char else c.

(** The pages of the registry, in whatever order the dictionary lists
    them. *)
Definition registered (st : state) : list loc := (map_to_list (pages st)).*2.

(** A file with a front matter and a body. *)
Definition sample_text : string :=
  "title: Hello" +:+ blank_line +:+ "First." +:+ blank_line +:+ "Second.".

(** A text without the character [<]. *)
Definition no_angle (s : string) : bool :=
  str_forall (fun c => negb (Ascii.eqb c "<")) s.

(** What the content loop does to the year lists for a page at [page]. *)
Definition file_under (self : Page) (page : loc) (years : gmap Z (list loc))
    : gmap Z (list loc) :=
  match attr self "date" with
  | VTime t => <[year t := default [] (years !! year t) ++ [page]]> years
  | _ => years
  end.

(** [sorted(posts, key=Page.sortkey_origin)] *)
Definition origin_sorted (utcoffset : datetime -> Z) (st : state)
    (posts : list loc) : list loc :=
  sorted_by (fun a b => key_le (sortkey_origin utcoffset (deref st a))
                               (sortkey_origin utcoffset (deref st b))) posts.

(** Every post of the chain links to the one before it and the one
    after it, [None] at the two ends. *)
Definition linked (st : state) (chain : list loc) : Prop :=
  forall (i : nat) (p : loc), chain !! i = Some p ->
    attr (deref st p) "prevpost"
    = ref_or_none (match i with O => None | S j => chain !! j end)
    /\ attr (deref st p) "nextpost" = ref_or_none (chain !! S i).

(** Every entry of the registry is an object filed under its own id. *)
Definition consistent (st : state) : Prop :=
  forall (k : key) (l : loc), pages st !! k = Some l ->
    (l < length (heap st))%nat /\ hash_key (attr (deref st l) "id") = Some k.

(** Every id of the registry is a string. *)
Definition string_ids (st : state) : Prop :=
  forall (k : key) (l : loc), pages st !! k = Some l -> exists s : string, k = KStr s.

(** The references of the year lists are objects. *)
Definition valid_years (L : list (Z * list loc)) (n : nat) : Prop :=
  forall y ps p, (y, ps) ∈ L -> p ∈ ps -> (p < n)%nat.

(** A registry in which an undated page already has the id of a year
    that has a post. *)
Definition taken_2020 : state :=
  State [dated_page "2020/a" date_2020_01_01; Page_init (VStr "2020") [] []]
        {[ KStr "2020/a" := 0%nat; KStr "2020" := 1%nat ]}.

Definition years_one : gmap Z (list loc) := {[ 2020 := [0%nat] ]}.

(** The line printed for a file. *)
Definition printed (site : Site) (deploy_path : string) (e : string * string)
    : string * string :=
  (src_of e, dest_of site deploy_path e).

(** The suffix of [join_url] with [ext] left at its default. *)
Definition html_ext (site : Site) : string :=
  if truthy (clean_urls site) then "" else ".html".

(* ===================================================================== *)
(** * Facts about the string primitives *)
(* ===================================================================== *)

Section StringFacts.

Lemma str_forall_app p s t :
  str_forall p (s +:+ t) = str_forall p s && str_forall p t.
Proof.
  induction s as [|c s IH]; simpl; [done|].
  by rewrite IH, andb_assoc.
Qed.

Lemma str_filter_forall p s : str_forall p (str_filter p s) = true.
Proof.
  induction s as [|c s IH]; simpl; [done|].
  destruct (p c) eqn:E; simpl; [by rewrite E|done].
Qed.

Lemma lower_char_not_upper c : is_upper (lower_char c) = false.
Proof. destruct c as [[] [] [] [] [] [] [] []]; reflexivity. Qed.

Lemma lower_char_keeps_class c :
  dash_or_space (lower_char c) = dash_or_space c.
Proof. destruct c as [[] [] [] [] [] [] [] []]; reflexivity. Qed.

Lemma lower_fixed s :
  str_forall (fun c => negb (is_upper c)) s = true -> lower s = s.
Proof.
  induction s as [|c s IH]; simpl; [done|].
  intros [Hc Hs]%andb_true_iff. rewrite (IH Hs).
  unfold lower_char. by destruct (is_upper c).
Qed.

Lemma sub_runs_fixed cls rep b s :
  str_forall (fun c => negb (cls c)) s = true -> sub_runs cls rep b s = s.
Proof.
  revert b. induction s as [|c s IH]; intros b; simpl; [done|].
  intros [Hc Hs]%andb_true_iff.
  destruct (cls c); [done|]. by rewrite IH.
Qed.

(** A substitution whose replacement text satisfies [q] yields a text
    satisfying [q] when every character outside the class does. *)
Lemma sub_runs_forall cls rep q b s :
  str_forall q rep = true ->
  str_forall (fun c => cls c || q c) s = true ->
  str_forall q (sub_runs cls rep b s) = true.
Proof.
  intros Hrep. revert b.
  induction s as [|c s IH]; intros b; simpl; [done|].
  intros [Hc Hs]%andb_true_iff.
  destruct (cls c) eqn:E.
  - destruct b; [by apply IH|]. rewrite str_forall_app, Hrep. by apply IH.
  - simpl in *. rewrite Hc. by apply IH.
Qed.

Lemma lower_forall s :
  str_forall (fun c => negb (is_upper c)) (lower s) = true.
Proof.
  induction s as [|c s IH]; simpl; [done|].
  by rewrite lower_char_not_upper, IH.
Qed.

Lemma str_forall_impl (p q : ascii -> bool) s :
  (forall c, p c = true -> q c = true) ->
  str_forall p s = true -> str_forall q s = true.
Proof.
  intros Hpq. induction s as [|c s IH]; simpl; [done|].
  intros [Hc Hs]%andb_true_iff. by rewrite (Hpq _ Hc), IH.
Qed.

End StringFacts.

(* ===================================================================== *)
(** * Normalizer: properties *)
(* ===================================================================== *)

Lemma norm_key_chars s : str_forall key_char (norm_key s) = true.
Proof.
  unfold norm_key. apply sub_runs_forall; [reflexivity|].
  eapply str_forall_impl; [|apply lower_forall].
  intros c Hc. unfold key_char. rewrite Hc. by destruct (dash_or_space c).
Qed.

(** C10. [norm_key] is idempotent: its output holds no upper-case
    letter, hyphen or space, so applying it again changes nothing. *)
Theorem norm_key_idempotent (s : string) :
  norm_key (norm_key s) = norm_key s
  /\ str_forall key_char (norm_key s) = true.
Proof.
  split; [|apply norm_key_chars].
  pose proof (norm_key_chars s) as H.
  unfold norm_key at 1.
  rewrite lower_fixed.
  - apply sub_runs_fixed.
    eapply str_forall_impl; [|exact H].
    unfold key_char. intros c [_ ?]%andb_true_iff. done.
  - eapply str_forall_impl; [|exact H].
    unfold key_char. intros c [? _]%andb_true_iff. done.
Qed.

Lemma split_char_nonempty sep s : split_char sep s <> [].
Proof.
  destruct s as [|c s]; simpl; [done|].
  destruct (Ascii.eqb c sep); [done|]. by destruct (split_char sep s).
Qed.

(** Joining the fields of [split_char] with the separator gives the
    text back: nothing but the separators is consumed. *)
Lemma join_split_char sep s :
  join (String sep "") (split_char sep s) = s.
Proof.
  induction s as [|c s IH]; simpl; [done|].
  destruct (Ascii.eqb_spec c sep) as [->|Hne].
  - pose proof (split_char_nonempty sep s) as Hn.
    destruct (split_char sep s) as [|t ts]; [done|].
    simpl in *. by rewrite IH.
  - pose proof (split_char_nonempty sep s) as Hn.
    destruct (split_char sep s) as [|t ts]; [done|].
    destruct ts as [|t' ts]; simpl in *; by rewrite <- IH.
Qed.

Lemma split_char_fields sep s :
  Forall (fun t => str_forall (fun c => negb (Ascii.eqb c sep)) t = true)
         (split_char sep s).
Proof.
  induction s as [|c s IH]; simpl; [by constructor|].
  destruct (Ascii.eqb c sep) eqn:E; [by constructor|].
  destruct (split_char sep s) as [|t ts]; [constructor; [by simpl; rewrite E|done]|].
  inversion IH; subst. constructor; [|done]. simpl. by rewrite E.
Qed.

Lemma contains_cons a c t :
  contains (String a "") (String c t)
  = Ascii.eqb a c || contains (String a "") t.
Proof. cbn [contains starts_with]. by rewrite andb_true_r. Qed.

Lemma no_sep_contains sep t :
  str_forall (fun c => negb (Ascii.eqb c sep)) t = true ->
  contains (String sep "") t = false.
Proof.
  induction t as [|c t IH]; [done|].
  cbn [str_forall]. intros [Hc Ht]%andb_true_iff.
  rewrite contains_cons, (IH Ht), orb_false_r.
  rewrite Ascii.eqb_sym. by apply negb_true_iff.
Qed.

(** The tokens of [split_ws] are non-empty and free of whitespace, and
    together they are the text with its whitespace removed. *)
Lemma split_ws_tokens s :
  Forall (fun t => nonempty t = true
                   /\ str_forall (fun c => negb (is_space c)) t = true)
         (split_ws s).
Proof.
  induction s as [|c s IH]; simpl; [by constructor|].
  destruct (is_space c) eqn:E; [done|].
  destruct (starts_token s).
  - destruct (split_ws s) as [|t ts].
    + constructor; [|done]. simpl. by rewrite E.
    + inversion IH as [|?? [_ Ht] Hts]; subst. constructor; [|done].
      simpl. by rewrite E, Ht.
  - constructor; [|done]. simpl. by rewrite E.
Qed.

Lemma split_ws_head s :
  starts_token s = true -> split_ws s <> [].
Proof.
  destruct s as [|c s]; simpl; [done|].
  intros ->%negb_true_iff.
  destruct (starts_token s); [|done]. by destruct (split_ws s).
Qed.

Lemma split_ws_concat s :
  fold_right String.append "" (split_ws s)
  = str_filter (fun c => negb (is_space c)) s.
Proof.
  induction s as [|c s IH]; simpl; [done|].
  destruct (is_space c) eqn:E; simpl; [done|].
  destruct (starts_token s) eqn:Hs.
  - pose proof (split_ws_head s Hs) as Hn.
    destruct (split_ws s) as [|t ts]; [done|].
    simpl in *. by rewrite <- IH.
  - simpl. by rewrite IH.
Qed.

(** Only a text made of whitespace has no token. *)
Lemma split_ws_nil s :
  split_ws s = [] -> str_forall is_space s = true.
Proof.
  induction s as [|c s IH]; simpl; [done|].
  destruct (is_space c) eqn:E; simpl; [done|].
  destruct (starts_token s); [|done]. by destruct (split_ws s).
Qed.

Lemma is_space_not_alnum c : is_space c = true -> is_alnum c = false.
Proof. destruct c as [[] [] [] [] [] [] [] []]; vm_compute; congruence. Qed.

(** The characters of a whitespace text all strip to nothing. *)
Lemma blank_chars_dropped s :
  str_forall is_space s = true ->
  List.filter nonempty (map alphanum (str_chars s)) = [].
Proof.
  induction s as [|c s IH]; simpl; [done|].
  intros [Hc Hs]%andb_true_iff.
  unfold alphanum at 1. simpl.
  rewrite (is_space_not_alnum _ Hc). simpl. by apply IH.
Qed.

Lemma norm_tags_str s : norm_tags (VStr s) = Ok (normTags_spec s).
Proof.
  unfold norm_tags, normTags_spec, tags_of_str.
  destruct (contains "," s).
  - pose proof (split_char_nonempty "," s).
    by destruct (split_char "," s).
  - destruct (split_ws s) eqn:E; [|done].
    simpl. f_equal. apply blank_chars_dropped. by apply split_ws_nil.
Qed.

Lemma filter_nonempty_alnum l :
  Forall (fun t => nonempty t = true /\ str_forall is_alnum t = true)
         (List.filter nonempty (map alphanum l)).
Proof.
  induction l as [|t l IH]; simpl; [by constructor|].
  destruct (nonempty (alphanum t)) eqn:E; [|done].
  constructor; [|done]. split; [done|]. apply str_filter_forall.
Qed.

Lemma filter_sublist {A} (p : A -> bool) l : sublist (List.filter p l) l.
Proof.
  induction l as [|x l IH]; simpl; [constructor|].
  destruct (p x); by constructor.
Qed.


(** [join_url] on the two parts of the example, for every site. *)
Lemma join_url_blog_post site :
  join_url site [VStr "blog"; VStr "post"] (VBool true)
  = if truthy (clean_urls site) then "blog/post" else "blog/post.html".
Proof. unfold join_url. simpl. by destruct (truthy (clean_urls site)). Qed.

(** C7, as stated, fails: [join_url] puts no slash in front of the first
    part. *)
Lemma join_url_leading_slash_counterexample :
  ~ (forall site : Site,
       join_url site [VStr "blog"; VStr "post"] (VBool true)
       = if truthy (clean_urls site) then "/blog/post" else "/blog/post.html").
Proof.
  intros H. specialize (H clean_site). vm_compute in H. discriminate.
Qed.

(** C7, amended. [join_url("blog", "post", ext=True)] is [blog/post] in
    clean-URL mode and [blog/post.html] otherwise; the result starts
    with a slash only when the first part does, as in the [url] of the
    page [blog/post] of a site whose root is the slash. *)
Theorem join_url_clean_mode (site : Site) :
  join_url site [VStr "blog"; VStr "post"] (VBool true)
  = (if truthy (clean_urls site) then "blog/post" else "blog/post.html")
  /\ url (Build_Site (clean_urls site) "/" (files_rename site))
         (Page_init (VStr "blog/post") [] [])
     = (if truthy (clean_urls site) then "/blog/post" else "/blog/post.html").
Proof.
  split; [apply join_url_blog_post|].
  unfold url, join_url. simpl. by destruct (truthy (clean_urls site)).
Qed.

(* ===================================================================== *)
(** * Page registry: [add] and [get] *)
(* ===================================================================== *)


Lemma duplicate_id_raises {A} (id : value) :
  exists e, @duplicate_id A id = Raise e.
Proof. unfold duplicate_id, die. destruct (fmt_s id); by eexists. Qed.

Lemma add_taken st page k other :
  hash_key (attr (deref st page) "id") = Some k ->
  pages st !! k = Some other ->
  add page st = (duplicate_id (attr (deref st page) "id"), st).
Proof. intros Hk H. unfold add. by rewrite Hk, H. Qed.

Lemma add_free st page k :
  hash_key (attr (deref st page) "id") = Some k ->
  pages st !! k = None ->
  add page st = (Ok tt, State (heap st) (<[k := page]> (pages st))).
Proof. intros Hk H. unfold add. by rewrite Hk, H. Qed.

(** The three ways of [add]: the id cannot be hashed, the id is taken,
    the id is free. *)
Lemma add_cases page st :
  match hash_key (attr (deref st page) "id") with
  | None => add page st = (Raise TypeError, st)
  | Some k =>
      match pages st !! k with
      | Some _ => exists e, add page st = (Raise e, st)
                            /\ @duplicate_id unit (attr (deref st page) "id") = Raise e
      | None => add page st = (Ok tt, State (heap st) (<[k := page]> (pages st)))
      end
  end.
Proof.
  unfold add. destruct (hash_key (attr (deref st page) "id")) as [k|]; [|done].
  destruct (pages st !! k); [|done].
  destruct (@duplicate_id_raises unit (attr (deref st page) "id")) as [e He].
  exists e. by rewrite He.
Qed.

Lemma duplicate_id_str {A} (s : string) :
  @duplicate_id A (VStr s) = die ("duplicate page id: " +:+ s).
Proof. done. Qed.



(** The text of a date in a message. *)
Example str_datetime_sample :
  py_str (VTime (Datetime 2020 1 1 9 5 0)) = "2020-01-01 09:05:00"
  /\ fmt_s (VInt 5) = Some "5"
  /\ fmt_s (VTuple ["a"; "b"]) = None.
Proof. by vm_compute. Qed.

(** Ids that differ as dictionary keys do not collide: two pages whose
    front matter gave them the numbers 5 and 6 are both registered, and
    so are the number 5 and the text 5. *)
Example add_number_ids :
  let p (id : value) : Page := <["id" := id]> (Page_init (VStr "x") [] []) in
  match (_ ← add 0%nat; _ ← add 1%nat; add 2%nat)
          (State [p (VInt 5); p (VInt 6); p (VStr "5")] ∅) with
  | (Ok _, st) =>
      pages st !! KInt 5 = Some 0%nat
      /\ pages st !! KInt 6 = Some 1%nat
      /\ pages st !! KStr "5" = Some 2%nat
  | (Raise _, _) => False
  end.
Proof. vm_compute. done. Qed.

(** C5, as stated, fails: a missing id is a [KeyError] that neither
    handler of the build turns into a [die]. *)
Lemma get_missing_counterexample :
  ~ (forall (st : state) (id filename : string),
       pages st !! KStr id = None ->
       exists msg : string,
         build_try (render_try filename (site_get st (VStr id))) = die msg).
Proof.
  intros H. destruct (H empty_registry "x" "page.html" eq_refl) as [msg Hm].
  vm_compute in Hm. discriminate.
Qed.

(** C5, amended. [get(id)] on an id the registry does not hold raises
    the [KeyError] of the dictionary; neither the handler around the
    rendering of a template ([NameError]) nor the one around the render
    phase ([MakoException]) catches it, so the build ends in that
    exception and not in [die]. *)
Theorem get_missing (st : state) (id : string) :
  pages st !! KStr id = None ->
  site_get st (VStr id) = Raise (KeyError id)
  /\ (forall (A : Type) (filename : string) (k : loc -> outcome A),
        build_try (render_try filename (l ← site_get st (VStr id); k l))
        = Raise (KeyError id))
  /\ (forall msg : string, site_get st (VStr id) <> die msg).
Proof.
  intros H. unfold site_get, getitem. simpl. rewrite H.
  split; [done|]. split; [done|]. intros msg. unfold die. congruence.
Qed.

Lemma get_missing_witness :
  site_get empty_registry (VStr "x") = Raise (KeyError "x")
  /\ (forall (A : Type) (filename : string) (k : loc -> outcome A),
        build_try (render_try filename (l ← site_get empty_registry (VStr "x"); k l))
        = Raise (KeyError "x"))
  /\ (forall msg : string, site_get empty_registry (VStr "x") <> die msg).
Proof. apply (get_missing empty_registry "x"). reflexivity. Defined.

(* ===================================================================== *)
(** * Content parser: front matter and body *)
(* ===================================================================== *)

Lemma partition_absent sep s :
  contains sep s = false -> partition sep s = None.
Proof.
  induction s as [|c s IH]; simpl.
  - intros H. apply orb_false_iff in H as [-> _]. done.
  - intros H. apply orb_false_iff in H as [-> H]. by rewrite IH.
Qed.

Lemma head_and_body_no_blank_line text :
  contains blank_line text = false -> head_and_body text = (text, "").
Proof.
  intros H. unfold head_and_body, split1. by rewrite partition_absent.
Qed.

(** C1, as stated, fails: a text without a blank line is taken as front
    matter, and the body is empty. *)
Lemma no_blank_line_counterexample :
  ~ (forall (yaml_load : string -> value) (markdown : string -> string)
            (parse_time : value -> outcome datetime) (site : Site)
            (name : string) (mtime : datetime) (text : string),
       contains blank_line text = false ->
       head_and_body text = ("", text)
       /\ exists pg : Page,
            ContentPage yaml_load markdown parse_time site name mtime text = Ok pg
            /\ attr pg "content" = VStr (markdown (strip text))).
Proof.
  intros H.
  destruct (H sample_yaml (fun s => s) sample_parse_time default_site
              "content/hello.md" epoch "title: Hello" eq_refl) as [Hsplit _].
  vm_compute in Hsplit. discriminate.
Qed.

(** C1, amended. When the text of a content file holds no blank line,
    the whole text is the front matter block and the body is empty: the
    page is built from the mapping the whole text parses to, and its
    [content] is the Markdown of the empty text. *)
Theorem no_blank_line_all_front_matter
    (yaml_load : string -> value) (markdown : string -> string)
    (parse_time : value -> outcome datetime) (site : Site)
    (name : string) (mtime : datetime) (text : string) :
  contains blank_line text = false ->
  head_and_body text = (text, "")
  /\ ContentPage yaml_load markdown parse_time site name mtime text
     = (let id := (splitext (basename name)).1 in
        items ← items_of (yaml_load text);
        self ← apply_head markdown parse_time items
                 (Page_init (VStr id) [] [("modified", VTime mtime)]);
        self ← dated_update site id self;
        Ok (<["content" := VStr (markdown "")]> self)).
Proof.
  intros H. split; [by apply head_and_body_no_blank_line|].
  unfold ContentPage. rewrite (head_and_body_no_blank_line _ H). done.
Qed.

Lemma no_blank_line_all_front_matter_witness :
  head_and_body "title: Hello" = ("title: Hello", "")
  /\ ContentPage sample_yaml (fun s => s) sample_parse_time default_site
       "content/hello.md" epoch "title: Hello"
     = (let id := (splitext (basename "content/hello.md")).1 in
        items ← items_of (sample_yaml "title: Hello");
        self ← apply_head (fun s => s) sample_parse_time items
                 (Page_init (VStr id) [] [("modified", VTime epoch)]);
        self ← dated_update default_site id self;
        Ok (<["content" := VStr ""]> self)).
Proof.
  apply (no_blank_line_all_front_matter sample_yaml (fun s => s)
           sample_parse_time default_site "content/hello.md" epoch
           "title: Hello").
  reflexivity.
Defined.

Example content_page_hello :
  match ContentPage sample_yaml (fun s => s) sample_parse_time default_site
          "content/hello.md" epoch "title: Hello" with
  | Ok pg => attr pg "id" = VStr "hello"
             /\ attr pg "title" = VStr "Hello"
             /\ attr pg "content" = VStr ""
  | Raise _ => False
  end.
Proof. vm_compute. done. Qed.

Example content_page_dated :
  match ContentPage sample_yaml (fun s => s) sample_parse_time default_site
          "content/first.post.md" epoch "date: 2020-01-01" with
  | Ok pg => attr pg "id" = VStr "2020/first.post"
             /\ attr pg "template" = VStr "entry"
             /\ attr pg "month_name" = VStr "January"
  | Raise _ => False
  end.
Proof. vm_compute. done. Qed.

(* ===================================================================== *)
(** * Paths and URLs *)
(* ===================================================================== *)

Lemma append_empty_r s : s +:+ "" = s.
Proof.
  induction s as [|c s IH]; [done|].
  change (String c s +:+ "") with (String c (s +:+ "")). by rewrite IH.
Qed.

Lemma rfind_lower c s : -1 <= rfind c s.
Proof.
  induction s as [|a s IH]; simpl; [lia|].
  destruct (0 <=? rfind c s) eqn:E; [lia|]. destruct (Ascii.eqb a c); lia.
Qed.

Lemma rfind_absent c s :
  rfind c s < 0 -> str_forall (fun x => negb (Ascii.eqb x c)) s = true.
Proof.
  induction s as [|a s IH]; simpl; [done|].
  destruct (0 <=? rfind c s) eqn:E.
  - apply Z.leb_le in E. lia.
  - apply Z.leb_gt in E. destruct (Ascii.eqb a c); [lia|].
    intros _. by rewrite IH.
Qed.

Lemma basename_cons a s :
  basename (String a s)
  = if 0 <=? rfind "/" s then basename s
    else if Ascii.eqb a "/" then s else String a s.
Proof.
  unfold basename. cbn [rfind].
  pose proof (rfind_lower "/" s) as Hl.
  destruct (0 <=? rfind "/" s) eqn:E.
  - apply Z.leb_le in E.
    replace (Z.to_nat (rfind "/" s + 1 + 1)) with (S (Z.to_nat (rfind "/" s + 1))) by lia.
    done.
  - destruct (Ascii.eqb a "/"); done.
Qed.

Lemma basename_no_slash p : no_slash (basename p) = true.
Proof.
  induction p as [|a s IH]; [done|].
  rewrite basename_cons.
  destruct (0 <=? rfind "/" s) eqn:E; [done|].
  apply Z.leb_gt in E. pose proof (rfind_absent _ _ E) as Hs.
  destruct (Ascii.eqb a "/") eqn:Ea; [done|].
  unfold no_slash. simpl. by rewrite Ea, Hs.
Qed.

Lemma str_take_forall p n s :
  str_forall p s = true -> str_forall p (str_take n s) = true.
Proof.
  revert s. induction n as [|n IH]; intros [|c s]; simpl; try done.
  intros [Hc Hs]%andb_true_iff. by rewrite Hc, IH.
Qed.

(** The root that [splitext] returns for a file name keeps it free of
    slashes and is not empty. *)
Lemma splitext_root p :
  p <> "" -> no_slash p = true ->
  (splitext p).1 <> "" /\ no_slash (splitext p).1 = true.
Proof.
  intros Hp Hs. unfold splitext.
  destruct (rfind "/" p <? rfind "." p) eqn:E; [|done].
  destruct (str_forall is_dot _) eqn:Hl; [done|]. simpl.
  split; [|by apply str_take_forall].
  apply Z.ltb_lt in E. pose proof (rfind_lower "/" p).
  destruct p as [|c p]; [done|].
  destruct (Z.to_nat (rfind "." (String c p))) eqn:En; [|done].
  assert (Z.to_nat (rfind "." (String c p) - (rfind "/" (String c p) + 1)) = 0%nat)
    as Hz by lia.
  rewrite Hz in Hl. done.
Qed.

Lemma contains_step p c s :
  contains p (String c s) = starts_with p (String c s) || contains p s.
Proof. done. Qed.

Lemma starts_with_step a p b s :
  starts_with (String a p) (String b s) = Ascii.eqb a b && starts_with p s.
Proof. done. Qed.

Lemma collapse_slashes_step c s :
  collapse_slashes (String c s)
  = if Ascii.eqb c "/" && starts_with "/" s then collapse_slashes s
    else String c (collapse_slashes s).
Proof. done. Qed.

Lemma collapse_slashes_fixed s :
  contains "//" s = false -> collapse_slashes s = s.
Proof.
  induction s as [|c s IH]; [done|].
  rewrite contains_step, starts_with_step, collapse_slashes_step.
  intros [H1 H2]%orb_false_iff.
  rewrite (Ascii.eqb_sym c "/"), H1. by rewrite IH.
Qed.

Lemma no_slash_cons c s :
  no_slash (String c s) = negb (Ascii.eqb c "/") && no_slash s.
Proof. done. Qed.

Lemma no_slash_contains s : no_slash s = true -> contains "//" s = false.
Proof.
  induction s as [|c s IH]; [done|].
  rewrite no_slash_cons, contains_step, starts_with_step.
  intros [Hc Hs]%andb_true_iff. apply negb_true_iff in Hc.
  by rewrite (Ascii.eqb_sym "/" c), Hc, IH.
Qed.

Lemma no_slash_starts s : no_slash s = true -> starts_with "/" s = false.
Proof.
  destruct s as [|c s]; [done|].
  rewrite no_slash_cons, starts_with_step.
  intros [Hc Hs]%andb_true_iff. apply negb_true_iff in Hc.
  by rewrite (Ascii.eqb_sym "/" c), Hc.
Qed.

Lemma no_double_slash_join a b :
  no_slash a = true -> no_slash b = true ->
  contains "//" (a +:+ "/" +:+ b) = false.
Proof.
  intros Ha Hb.
  induction a as [|c a IH].
  - change ("" +:+ "/" +:+ b) with (String "/" b).
    rewrite contains_step, starts_with_step.
    by rewrite (no_slash_starts b Hb), (no_slash_contains b Hb).
  - rewrite no_slash_cons in Ha.
    apply andb_true_iff in Ha as [Hc Ha]. apply negb_true_iff in Hc.
    change (String c a +:+ "/" +:+ b) with (String c (a +:+ "/" +:+ b)).
    rewrite contains_step, starts_with_step.
    by rewrite (IH Ha), (Ascii.eqb_sym "/" c), Hc.
Qed.

Lemma digits_no_slash d : no_slash (NilEmpty.string_of_uint d) = true.
Proof. induction d; simpl; try done; exact IHd. Qed.

Lemma str_int_no_slash n : no_slash (py_str (VInt n)) = true.
Proof.
  assert (Hu : forall d, no_slash (NilZero.string_of_uint d) = true).
  { intros d. pose proof (digits_no_slash d) as Hd. by destruct d. }
  unfold py_str, NilZero.string_of_int.
  destruct (Z.to_int n) as [d|d]; [apply Hu|].
  rewrite no_slash_cons. by rewrite Hu.
Qed.

Lemma truthy_str s : s <> "" -> truthy (VStr s) = true.
Proof.
  intros H. simpl. apply negb_true_iff.
  destruct (String.eqb_spec s ""); done.
Qed.

Lemma truthy_int n : n <> 0 -> truthy (VInt n) = true.
Proof. intros H. simpl. apply negb_true_iff. by apply Z.eqb_neq. Qed.

(** The id of a dated page: the year, a slash, the provisional id. *)
Lemma join_url_year_id site y id0 :
  y <> 0 -> id0 <> "" -> no_slash id0 = true ->
  join_url site [VInt y; VStr id0] (VBool false)
  = py_str (VInt y) +:+ "/" +:+ id0.
Proof.
  intros Hy Hid Hs. unfold join_url.
  cbn [List.filter]. rewrite (truthy_int y Hy), (truthy_str id0 Hid).
  cbn [map join truthy andb]. cbn [py_str].
  rewrite collapse_slashes_fixed, append_empty_r; [done|].
  apply no_double_slash_join; [apply (str_int_no_slash y)|done].
Qed.

(** The id of a year archive: the year. *)
Lemma join_url_year site y :
  y <> 0 -> join_url site [VInt y; VInt 0] (VBool false) = py_str (VInt y).
Proof.
  intros Hy. unfold join_url.
  cbn [List.filter]. rewrite (truthy_int y Hy).
  cbn [truthy Z.eqb negb map join andb].
  rewrite collapse_slashes_fixed, append_empty_r; [done|].
  apply no_slash_contains, (str_int_no_slash y).
Qed.

(* ===================================================================== *)
(** * Content parser: the dated rewrite *)
(* ===================================================================== *)

Lemma bind_Ok_inv {A B} (m : outcome A) (k : A -> outcome B) b :
  (x ← m; k x) = Ok b -> exists a, m = Ok a /\ k a = Ok b.
Proof. destruct m as [a|e]; [by exists a|done]. Qed.

Lemma attr_insert_eq (p : Page) k v : attr (<[k := v]> p) k = v.
Proof. unfold attr. apply lookup_total_insert_eq. Qed.

Lemma attr_insert_ne (p : Page) k k' v :
  k <> k' -> attr (<[k := v]> p) k' = attr p k'.
Proof. intros H. unfold attr. by apply lookup_total_insert_ne. Qed.

Lemma summary_sub_attr markdown fuel body (self : Page) k :
  k <> "summary" ->
  attr (summary_sub markdown fuel body self).2 k = attr self k.
Proof.
  intros Hk. revert body self.
  induction fuel as [|fuel IH]; intros body self; [done|].
  cbn [summary_sub].
  destruct (partition "<summary>" body) as [[before rest]|]; [|done].
  destruct (partition "</summary>" rest) as [[inner after]|]; [|done].
  specialize (IH after (<["summary" := VStr (markdown (strip inner))]> self)).
  destruct (summary_sub markdown fuel after _) as [tail self'].
  simpl in *. rewrite IH. by apply attr_insert_ne.
Qed.

(** A front matter without a [template] key leaves the template as it
    was. *)
Lemma apply_head_template markdown parse_time items (self self' : Page) :
  Forall (fun kv => norm_key kv.1 <> "template") items ->
  apply_head markdown parse_time items self = Ok self' ->
  attr self' "template" = attr self "template".
Proof.
  revert self. induction items as [|[k v] items IH]; intros self Hf H.
  - by injection H as <-.
  - inversion Hf as [|?? Hk Hrest]; subst. cbn [apply_head] in H.
    apply bind_Ok_inv in H as (v' & _ & H).
    rewrite (IH _ Hrest H). by apply attr_insert_ne.
Qed.

Lemma dated_update_date site id0 (self self' : Page) :
  dated_update site id0 self = Ok self' ->
  attr self' "date" = attr self "date".
Proof.
  unfold dated_update. destruct (truthy (attr self "date")); [|by intros [= <-]].
  destruct (attr self "date") eqn:E; try done.
  intros (mn & _ & [= <-])%bind_Ok_inv.
  unfold update. cbn [fold_left fst snd].
  by rewrite !attr_insert_ne.
Qed.

(** What the rewrite stores for a page with a date. *)
Lemma dated_update_time site id0 (self self' : Page) t :
  attr self "date" = VTime t ->
  dated_update site id0 self = Ok self' ->
  1900 <= year t
  /\ attr self' "id" = VStr (join_url site [VInt (year t); VStr id0] (VBool false))
  /\ attr self' "template"
     = (if truthy (attr self "template") then attr self "template" else VStr "entry").
Proof.
  intros Hd. unfold dated_update. rewrite Hd. cbn [truthy].
  intros (mn & Hmn & [= <-])%bind_Ok_inv.
  unfold strftime_B in Hmn.
  destruct (year t <? 1900) eqn:Hy; [done|]. apply Z.ltb_ge in Hy.
  split; [done|].
  unfold update. cbn [fold_left fst snd].
  split.
  - rewrite !attr_insert_ne by done. apply attr_insert_eq.
  - rewrite !attr_insert_ne by done. apply attr_insert_eq.
Qed.

Lemma basename_root name :
  basename name <> "" ->
  (splitext (basename name)).1 <> ""
  /\ no_slash (splitext (basename name)).1 = true.
Proof. intros H. apply splitext_root; [done|apply basename_no_slash]. Qed.

(** C4. A page the parser produces with a date has the id
    [year/basename], the basename being the file name without its
    directory and extension, and the template [entry] unless the front
    matter supplied one. *)
Theorem dated_page_id_template
    (yaml_load : string -> value) (markdown : string -> string)
    (parse_time : value -> outcome datetime) (site : Site)
    (name : string) (mtime : datetime) (text : string) (pg : Page) :
  basename name <> "" ->
  ContentPage yaml_load markdown parse_time site name mtime text = Ok pg ->
  truthy (attr pg "date") = true ->
  let id0 := (splitext (basename name)).1 in
  exists (t : datetime) (items : list (string * value)) (self : Page),
    yaml_load (head_and_body text).1 = VMap items
    /\ apply_head markdown parse_time items
         (Page_init (VStr id0) [] [("modified", VTime mtime)]) = Ok self
    /\ attr pg "date" = VTime t
    /\ attr pg "id" = VStr (py_str (VInt (year t)) +:+ "/" +:+ id0)
    /\ attr pg "template"
       = (if truthy (attr self "template") then attr self "template"
          else VStr "entry")
    /\ (Forall (fun kv => norm_key kv.1 <> "template") items ->
        attr pg "template" = VStr "entry").
Proof.
  intros Hname H Hdate id0.
  destruct (basename_root name Hname) as [Hne Hns]. fold id0 in Hne, Hns.
  unfold ContentPage in H. fold id0 in H.
  destruct (head_and_body text) as [h b] eqn:Hhb.
  apply bind_Ok_inv in H as (items & Hitems & H).
  apply bind_Ok_inv in H as (self1 & Hhead & H).
  apply bind_Ok_inv in H as (self2 & Hupd & H).
  pose proof (summary_sub_attr markdown (String.length b) b self2) as Hsum.
  destruct (summary_sub markdown (String.length b) b self2) as [body' self3].
  injection H as <-. simpl in Hsum.
  assert (Hpg : forall k, k <> "summary" -> k <> "content" ->
                attr (<["content" := VStr (markdown (strip body'))]> self3) k
                = attr self2 k).
  { intros k Hk1 Hk2. rewrite attr_insert_ne by done. by apply Hsum. }
  rewrite (Hpg "date") in Hdate by done.
  rewrite (dated_update_date _ _ _ _ Hupd) in Hdate.
  assert (exists t, attr self1 "date" = VTime t) as [t Ht].
  { unfold dated_update in Hupd. rewrite Hdate in Hupd.
    destruct (attr self1 "date"); try done. by eexists. }
  destruct (dated_update_time _ _ _ _ _ Ht Hupd) as (Hy & Hid & Htpl).
  exists t, items, self1.
  assert (Hyaml : yaml_load h = VMap items).
  { unfold items_of in Hitems. destruct (yaml_load h); try done.
    by injection Hitems as ->. }
  split; [done|]. split; [done|].
  split; [by rewrite (Hpg "date"), (dated_update_date _ _ _ _ Hupd)|].
  split.
  { rewrite (Hpg "id"), Hid by done. f_equal.
    apply join_url_year_id; [lia|done|done]. }
  assert (Htpl' : attr (<["content" := VStr (markdown (strip body'))]> self3) "template"
                  = (if truthy (attr self1 "template") then attr self1 "template"
                     else VStr "entry")).
  { by rewrite (Hpg "template"), Htpl. }
  split; [done|].
  intros Hno. rewrite Htpl'.
  by rewrite (apply_head_template _ _ _ _ _ Hno Hhead).
Qed.

Lemma dated_page_id_template_witness :
  exists (pg : Page) (t : datetime) (items : list (string * value)) (self : Page),
    ContentPage sample_yaml (fun s => s) sample_parse_time default_site
      "content/first.post.md" epoch "date: 2020-01-01" = Ok pg
    /\ sample_yaml (head_and_body "date: 2020-01-01").1 = VMap items
    /\ apply_head (fun s => s) sample_parse_time items
         (Page_init (VStr "first.post") [] [("modified", VTime epoch)]) = Ok self
    /\ attr pg "date" = VTime t
    /\ attr pg "id" = VStr (py_str (VInt (year t)) +:+ "/" +:+ "first.post")
    /\ attr pg "template"
       = (if truthy (attr self "template") then attr self "template"
          else VStr "entry")
    /\ (Forall (fun kv => norm_key kv.1 <> "template") items ->
        attr pg "template" = VStr "entry").
Proof.
  eexists.
  refine (let H := dated_page_id_template sample_yaml (fun s => s)
                     sample_parse_time default_site "content/first.post.md"
                     epoch "date: 2020-01-01" _ _ _ _ in _).
  - destruct H as (t & items & self & H). exists t, items, self.
    split; [|exact H]. reflexivity.
  Unshelve.
  + vm_compute. discriminate.
  + vm_compute. reflexivity.
  + vm_compute. reflexivity.
Defined.

(* ===================================================================== *)
(** * Sorting *)
(* ===================================================================== *)

Section Sorting.

Context {A : Type} (le : A -> A -> bool).
Hypothesis le_total : forall x y, le x y = true \/ le y x = true.
Hypothesis le_trans : forall x y z, le x y = true -> le y z = true -> le x z = true.

Lemma insert_by_perm x l : insert_by le x l ≡ₚ x :: l.
Proof.
  induction l as [|y l IH]; simpl; [done|].
  destruct (le x y); [done|]. rewrite IH. apply perm_swap.
Qed.

Lemma sorted_by_perm l : sorted_by le l ≡ₚ l.
Proof.
  induction l as [|x l IH]; simpl; [done|].
  by rewrite insert_by_perm, IH.
Qed.

Lemma insert_by_sorted x l :
  StronglySorted (fun a b => le a b = true) l ->
  StronglySorted (fun a b => le a b = true) (insert_by le x l).
Proof.
  induction 1 as [|y l Hs IH Hy]; simpl; [by repeat constructor|].
  destruct (le x y) eqn:E.
  - constructor; [by constructor|]. constructor; [done|].
    eapply Forall_impl; [exact Hy|]. intros z Hz. simpl in Hz. by eapply le_trans.
  - constructor; [done|].
    rewrite insert_by_perm. constructor; [|done].
    destruct (le_total x y) as [H|H]; [congruence|done].
Qed.

Lemma sorted_by_sorted l :
  StronglySorted (fun a b => le a b = true) (sorted_by le l).
Proof.
  induction l as [|x l IH]; simpl; [constructor|]. by apply insert_by_sorted.
Qed.

Lemma filter_sorted (R : A -> A -> Prop) f l :
  StronglySorted R l -> StronglySorted R (List.filter f l).
Proof.
  induction 1 as [|x l Hs IH Hx]; simpl; [constructor|].
  destruct (f x); [|done]. constructor; [done|].
  apply Forall_forall. intros y [Hy _]%list_elem_of_In%filter_In.
  rewrite Forall_forall in Hx. by apply Hx, list_elem_of_In.
Qed.

Lemma filter_perm f (l l' : list A) :
  l ≡ₚ l' -> List.filter f l ≡ₚ List.filter f l'.
Proof.
  induction 1 as [|x l l' _ IH|x y l|l l' l'' _ IH1 _ IH2]; simpl.
  - done.
  - destruct (f x); by rewrite IH.
  - destruct (f x), (f y); try done. apply perm_swap.
  - by etrans.
Qed.

(** A sorted arrangement of three elements in strictly rising order is
    the rising one. *)
Lemma sorted_three l a b c :
  StronglySorted (fun x y => le x y = true) l ->
  l ≡ₚ [a; b; c] ->
  le b a = false -> le c b = false -> le c a = false ->
  l = [a; b; c].
Proof.
  intros Hs Hp Hba Hcb Hca.
  assert (Hlen : length l = 3%nat) by (by rewrite Hp).
  destruct l as [|x [|y [|z [|? ?]]]]; try done.
  assert (Hin : forall e, e ∈ [x; y; z] <-> e ∈ [a; b; c]) by (intros e; by rewrite Hp).
  assert (Hnd : NoDup [a; b; c]).
  { repeat constructor; rewrite ?elem_of_cons, ?elem_of_nil; intros H.
    - destruct H as [->|[->|[]]].
      + destruct (le_total b b); congruence.
      + destruct (le_total c c); congruence.
    - destruct H as [->|[]]. destruct (le_total c c); congruence.
    - done. }
  rewrite <- Hp in Hnd.
  apply NoDup_cons in Hnd as [Hx Hnd]. apply NoDup_cons in Hnd as [Hy _].
  rewrite !elem_of_cons, elem_of_nil in Hx. rewrite !elem_of_cons, elem_of_nil in Hy.
  inversion Hs as [|?? Hs' Hxs]; subst.
  inversion Hs' as [|?? _ Hys]; subst.
  inversion Hxs as [|?? Rxy Hxs']; subst. inversion Hxs' as [|?? Rxz _]; subst.
  inversion Hys as [|?? Ryz _]; subst.
  assert (Hxe : x ∈ [a; b; c]) by (apply Hin; rewrite !elem_of_cons; auto).
  assert (Hye : y ∈ [a; b; c]) by (apply Hin; rewrite !elem_of_cons; auto).
  assert (Hze : z ∈ [a; b; c]) by (apply Hin; rewrite !elem_of_cons; auto).
  rewrite !elem_of_cons, !elem_of_nil in Hxe, Hye, Hze.
  destruct Hxe as [->|[->|[->|[]]]];
  destruct Hye as [->|[->|[->|[]]]];
  destruct Hze as [->|[->|[->|[]]]];
  try done; try congruence;
  try (exfalso; apply Hx; auto; fail); try (exfalso; apply Hy; auto; fail).
Qed.

End Sorting.

(* ===================================================================== *)
(** * The order of the sort keys *)
(* ===================================================================== *)

Lemma str_leb_trans a b c :
  String.leb a b = true -> String.leb b c = true -> String.leb a c = true.
Proof.
  intros H1 H2. apply Is_true_true.
  change (String.le a c). transitivity b; by apply Is_true_true.
Qed.

Lemma key_le_total a b : key_le a b = true \/ key_le b a = true.
Proof.
  unfold key_le.
  destruct (Z.lt_trichotomy a.1 b.1) as [H|[H|H]].
  - left. apply orb_true_iff. left. by apply Z.ltb_lt.
  - destruct (String.leb_total a.2 b.2) as [Hs|Hs]; [left|right];
      apply orb_true_iff; right; rewrite Hs, andb_true_r; apply Z.eqb_eq; lia.
  - right. apply orb_true_iff. left. by apply Z.ltb_lt.
Qed.

Lemma key_le_trans a b c :
  key_le a b = true -> key_le b c = true -> key_le a c = true.
Proof.
  unfold key_le. rewrite !orb_true_iff, !andb_true_iff, !Z.ltb_lt, !Z.eqb_eq.
  intros [H1|[H1 S1]] [H2|[H2 S2]]; try (left; lia).
  right. split; [lia|]. by eapply str_leb_trans.
Qed.

Lemma key_lt_le a b :
  key_lt a b = true -> key_le a b = true /\ key_le b a = false.
Proof.
  unfold key_lt, key_le.
  rewrite !orb_true_iff, !andb_true_iff, orb_false_iff, andb_false_iff,
    !Z.ltb_lt, !Z.eqb_eq, Z.ltb_ge, Z.eqb_neq.
  unfold String.ltb, String.leb. rewrite (String.compare_antisym b.2 a.2).
  intros [H|[H S]].
  - split; [by left|]. split; [lia|left; lia].
  - destruct (String.compare a.2 b.2) eqn:E; try done.
    split; [by right|]. split; [lia|by right].
Qed.

(** Three keys in strictly rising order. *)
Lemma key_lt_chain a b c :
  key_lt a b = true -> key_lt b c = true ->
  key_le b a = false /\ key_le c b = false /\ key_le c a = false.
Proof.
  intros [Hab Hba]%key_lt_le [Hbc Hcb]%key_lt_le.
  split; [done|]. split; [done|].
  destruct (key_le c a) eqn:E; [|done].
  by rewrite (key_le_trans _ _ _ E Hab) in Hcb.
Qed.

(** Sorting a collection that holds three elements with strictly rising
    keys, in any order, lists them by rising key. *)
Lemma sorted_by_three {A} (key : A -> Z * string) (l : list A) a b c :
  l ≡ₚ [a; b; c] ->
  key_lt (key a) (key b) = true -> key_lt (key b) (key c) = true ->
  sorted_by (fun x y => key_le (key x) (key y)) l = [a; b; c].
Proof.
  intros Hp Hab Hbc.
  destruct (key_lt_chain _ _ _ Hab Hbc) as (H1 & H2 & H3).
  apply (sorted_three (fun x y => key_le (key x) (key y))); try done.
  - intros x y. apply key_le_total.
  - apply sorted_by_sorted.
    + intros x y. apply key_le_total.
    + intros x y z. apply key_le_trans.
  - by rewrite sorted_by_perm.
Qed.

(** The same when the collection holds more, and the three are the ones
    a filter keeps. *)
Lemma filter_sorted_by_three {A} (key : A -> Z * string) f (l : list A) a b c :
  List.filter f l ≡ₚ [a; b; c] ->
  key_lt (key a) (key b) = true -> key_lt (key b) (key c) = true ->
  List.filter f (sorted_by (fun x y => key_le (key x) (key y)) l) = [a; b; c].
Proof.
  intros Hp Hab Hbc.
  destruct (key_lt_chain _ _ _ Hab Hbc) as (H1 & H2 & H3).
  apply (sorted_three (fun x y => key_le (key x) (key y))); try done.
  - intros x y. apply key_le_total.
  - apply filter_sorted, sorted_by_sorted.
    + intros x y. apply key_le_total.
    + intros x y z. apply key_le_trans.
  - rewrite <- Hp. apply filter_perm, sorted_by_perm.
Qed.

(* ===================================================================== *)
(** * Listing pages: [select] *)
(* ===================================================================== *)

Lemma mktime_listing_dates utcoffset :
  (forall t, -86400 <= utcoffset t <= 86400) ->
  mktime utcoffset date_2020_01_01 < mktime utcoffset date_2020_06_01
  /\ mktime utcoffset date_2020_06_01 < mktime utcoffset date_2021_01_01.
Proof.
  intros H. unfold mktime.
  pose proof (H date_2020_01_01). pose proof (H date_2020_06_01).
  pose proof (H date_2021_01_01).
  change (utc_seconds date_2020_01_01) with 1577836800.
  change (utc_seconds date_2020_06_01) with 1590969600.
  change (utc_seconds date_2021_01_01) with 1609459200.
  lia.
Qed.

Lemma key_lt_time (a b : Z * string) : a.1 < b.1 -> key_lt a b = true.
Proof.
  intros H. unfold key_lt. apply orb_true_iff. left. by apply Z.ltb_lt.
Qed.

Lemma sorted_snoc {A} (R : A -> A -> Prop) (l : list A) (x : A) :
  StronglySorted R l -> Forall (fun y => R y x) l -> StronglySorted R (l ++ [x]).
Proof.
  induction 1 as [|y l Hs IH Hy]; intros Hx; simpl.
  - by repeat constructor.
  - apply Forall_cons in Hx as [Hyx Hx]. constructor; [by apply IH|].
    apply Forall_app. split; [done|]. by constructor.
Qed.

Lemma sorted_rev {A} (R : A -> A -> Prop) (l : list A) :
  StronglySorted R l -> StronglySorted (fun a b => R b a) (rev l).
Proof.
  induction 1 as [|x l Hs IH Hx]; simpl; [constructor|].
  apply sorted_snoc; [done|]. rewrite Forall_forall in Hx.
  apply Forall_forall. intros y Hy. apply Hx.
  by apply list_elem_of_In, in_rev, list_elem_of_In.
Qed.

Lemma sorted_impl {A} (R R' : A -> A -> Prop) (l : list A) :
  (forall a b, a ∈ l -> b ∈ l -> R a b -> R' a b) ->
  StronglySorted R l -> StronglySorted R' l.
Proof.
  intros H Hs. induction Hs as [|x l Hs IH Hx]; constructor.
  - apply IH. intros a b Ha Hb. apply H; by right.
  - rewrite Forall_forall in Hx. apply Forall_forall. intros y Hy.
    apply H; [by left|by right|by apply Hx].
Qed.

Lemma posted_time_key utcoffset (p : Page) :
  time_or_none (attr p "posted") ->
  (sortkey_posted utcoffset p).1 = posted_time utcoffset p.
Proof.
  unfold sortkey_posted, posted_time. cbn [fst].
  intros [->|[t ->]]; [|done]. cbn [truthy].
  by destruct (attr p "date").
Qed.

Lemma key_le_time (a b : Z * string) : key_le a b = true -> a.1 <= b.1.
Proof.
  unfold key_le. rewrite orb_true_iff, andb_true_iff, Z.ltb_lt, Z.eqb_eq. lia.
Qed.




(** The two listings of the registry in which the oldest page was
    posted again in 2022: by posted date it comes first, by date of
    origin it comes first as well. *)
Example select_reposted :
  select utc reposted_registry None true false None = [3%nat; 2%nat; 0%nat]
  /\ select utc reposted_registry None true true None = [3%nat; 0%nat; 2%nat].
Proof. by vm_compute. Qed.

(* ===================================================================== *)
(** * Archive derivation *)
(* ===================================================================== *)

Lemma str_int_inj a b : py_str (VInt a) = py_str (VInt b) -> a = b.
Proof.
  unfold py_str. intros H.
  assert (Hn : forall n, Z.to_int n <> Decimal.Pos Decimal.Nil
                         /\ Z.to_int n <> Decimal.Neg Decimal.Nil).
  { intros [|p|p]; simpl; split; try done;
      intros [= Hp]; by apply DecimalPos.Unsigned.to_uint_nonnil in Hp. }
  assert (Z.to_int a = Z.to_int b) as E.
  { apply (f_equal NilZero.int_of_string) in H.
    rewrite !NilZero.isi in H by apply Hn. congruence. }
  by rewrite <- (DecimalZ.of_to a), <- (DecimalZ.of_to b), E.
Qed.

Lemma str_int_nonempty a : py_str (VInt a) <> "".
Proof.
  unfold py_str, NilZero.string_of_int, NilZero.string_of_uint.
  destruct a as [|p|p]; simpl; try done.
  - pose proof (DecimalPos.Unsigned.to_uint_nonnil p).
    by destruct (Pos.to_uint p).
Qed.

Lemma archive_id_zero site : archive_id site 0 = "".
Proof. done. Qed.

Lemma archive_id_inj site y y' :
  archive_id site y = archive_id site y' -> y = y'.
Proof.
  unfold archive_id.
  destruct (decide (y = 0)) as [->|Hy]; destruct (decide (y' = 0)) as [->|Hy'];
    [done|..].
  - rewrite (join_url_year site y' Hy').
    change (join_url site [VInt 0; VInt 0] (VBool false)) with "".
    intros H. symmetry in H. by apply str_int_nonempty in H.
  - rewrite (join_url_year site y Hy).
    change (join_url site [VInt 0; VInt 0] (VBool false)) with "".
    intros H. by apply str_int_nonempty in H.
  - rewrite (join_url_year site y Hy), (join_url_year site y' Hy').
    apply str_int_inj.
Qed.

Lemma ArchivePage_year site posts y :
  ArchivePage site posts y 0 = Ok (year_archive site posts y).
Proof. done. Qed.

Lemma archive_page_id site posts y :
  attr (year_archive site posts y) "id" = VStr (archive_id site y).
Proof.
  unfold year_archive, Page_init, attr, update. cbn [fold_left fst snd].
  rewrite !lookup_total_insert_ne by done.
  by rewrite lookup_total_insert_eq.
Qed.

Lemma attr_heap_insert (h : list Page) (p l : loc) (q : Page) k :
  attr q k = attr (h !!! p) k ->
  attr (<[p := q]> h !!! l) k = attr (h !!! l) k.
Proof.
  intros Hq. destruct (decide (p = l)) as [->|Hne].
  - destruct (decide (l < length h)%nat) as [Hl|Hl].
    + by rewrite list_lookup_total_insert_eq.
    + by rewrite list_insert_ge by lia.
  - by rewrite list_lookup_total_insert_ne.
Qed.

Lemma link_posts_step pv p nx rest st :
  link_posts ((pv, p, nx) :: rest) st
  = link_posts rest
      (State (<[p := <["nextpost" := ref_or_none nx]>
                       (<[p := <["prevpost" := ref_or_none pv]> (heap st !!! p)]>
                          (heap st) !!! p)]>
                (<[p := <["prevpost" := ref_or_none pv]> (heap st !!! p)]> (heap st)))
             (pages st)).
Proof. done. Qed.

(** The loop over the neighbours never fails; it writes the two links
    of every post it visits and touches nothing else. *)
Lemma link_posts_spec triples st :
  exists h',
    link_posts triples st = (Ok tt, State h' (pages st))
    /\ length h' = length (heap st)
    /\ (forall l k, k <> "prevpost" -> k <> "nextpost" ->
          attr (h' !!! l) k = attr (heap st !!! l) k)
    /\ (forall l, l ∉ map post_of triples -> h' !!! l = heap st !!! l)
    /\ (NoDup (map post_of triples) ->
        forall pv p nx, (pv, p, nx) ∈ triples -> (p < length (heap st))%nat ->
          attr (h' !!! p) "prevpost" = ref_or_none pv
          /\ attr (h' !!! p) "nextpost" = ref_or_none nx).
Proof.
  revert st. induction triples as [|[[pv p] nx] rest IH]; intros st.
  - exists (heap st). destruct st. split; [done|]. split; [done|].
    split; [done|]. split; [done|]. intros _ ??? H. by apply elem_of_nil in H.
  - rewrite link_posts_step.
    set (h1 := <[p := <["prevpost" := ref_or_none pv]> (heap st !!! p)]> (heap st)).
    set (h2 := <[p := <["nextpost" := ref_or_none nx]> (h1 !!! p)]> h1).
    destruct (IH (State h2 (pages st))) as (h' & Hrun & Hlen & Hframe & Hother & Hlinks).
    cbn [heap pages] in *.
    assert (Hlen2 : length h2 = length (heap st)).
    { unfold h2, h1. by rewrite !length_insert. }
    exists h'. split; [done|]. split; [congruence|].
    split; [|split].
    + intros l k Hk1 Hk2. rewrite (Hframe l k Hk1 Hk2). unfold h2.
      rewrite attr_heap_insert by (by apply attr_insert_ne).
      unfold h1. apply attr_heap_insert. by apply attr_insert_ne.
    + intros l Hl. cbn [map] in Hl. apply not_elem_of_cons in Hl as [Hne Hl].
      rewrite (Hother l Hl). unfold h2, h1, post_of in *. simpl in Hne.
      by rewrite !list_lookup_total_insert_ne.
    + intros Hnd pv' p' nx' Hin Hvalid. cbn [map] in Hnd.
      apply NoDup_cons in Hnd as [Hp Hnd].
      apply elem_of_cons in Hin as [[= -> -> ->]|Hin].
      * rewrite (Hother p Hp). unfold h2.
        rewrite list_lookup_total_insert_eq by (unfold h1; by rewrite length_insert).
        unfold h1. rewrite list_lookup_total_insert_eq by done.
        split; [|apply attr_insert_eq].
        rewrite attr_insert_ne by done. apply attr_insert_eq.
      * apply Hlinks; [done|done|congruence].
Qed.

Lemma neighbours_three {A} (a b c : A) :
  neighbours [a; b; c] = [(None, a, Some b); (Some a, b, Some c); (Some b, c, None)].
Proof. done. Qed.

Lemma deref_alloc (h : list Page) (p : Page) pg :
  deref (State (h ++ [p]) pg) (length h) = p.
Proof. unfold deref. cbn [heap]. by apply list_lookup_total_middle. Qed.

Lemma archive_year_run utcoffset site y posts st :
  pages st !! KStr (archive_id site y) = None ->
  archive_year utcoffset site y posts st
  = link_posts
      (neighbours (sorted_by (fun a b => key_le (sortkey_origin utcoffset (deref st a))
                                               (sortkey_origin utcoffset (deref st b)))
                             posts))
      (State (heap st ++ [year_archive site
                            (sorted_by (fun a b => key_le (sortkey_origin utcoffset (deref st a))
                                                         (sortkey_origin utcoffset (deref st b)))
                                       posts) y])
             (<[KStr (archive_id site y) := length (heap st)]> (pages st))).
Proof.
  intros Hfree. unfold archive_year, mbind, M_bind, lift, alloc, add.
  rewrite ArchivePage_year. cbn [heap pages]. rewrite !deref_alloc.
  rewrite archive_page_id. cbn [hash_key]. rewrite Hfree. done.
Qed.

Lemma archive_year_taken utcoffset site y posts st l :
  pages st !! KStr (archive_id site y) = Some l ->
  exists st', archive_year utcoffset site y posts st
              = (die ("duplicate page id: " +:+ archive_id site y), st').
Proof.
  intros Htaken. unfold archive_year, mbind, M_bind, lift, alloc, add.
  rewrite ArchivePage_year. cbn [heap pages]. rewrite !deref_alloc.
  rewrite archive_page_id. cbn [hash_key]. rewrite Htaken. by eexists.
Qed.

Lemma neighbours_posts {A} (L : list A) :
  map (fun t : option A * A * option A => t.1.2) (neighbours L) = L.
Proof.
  unfold neighbours.
  assert (Hlen : (length L <= length (None :: map Some (removelast L)))%nat).
  { cbn [length]. rewrite length_map.
    induction L as [|x L _] using rev_ind; [simpl; lia|].
    rewrite removelast_last, length_app. simpl. lia. }
  assert (Hlen' : (length L <= length (map Some (tail L) ++ [None]))%nat).
  { rewrite length_app, length_map. destruct L; simpl; lia. }
  rewrite <- (map_map fst snd).
  change (map fst ?l) with (l.*1). change (map snd ?l) with (l.*2).
  rewrite fst_zip.
  - by apply snd_zip.
  - rewrite length_zip_with. lia.
Qed.

Lemma sortkey_origin_frame utcoffset (p q : Page) :
  attr p "date" = attr q "date" -> attr p "id" = attr q "id" ->
  sortkey_origin utcoffset p = sortkey_origin utcoffset q.
Proof. intros Hd Hi. unfold sortkey_origin, page_id. by rewrite Hd, Hi. Qed.

Lemma chained_ext st st' p1 p2 p3 :
  deref st' p1 = deref st p1 -> deref st' p2 = deref st p2 ->
  deref st' p3 = deref st p3 ->
  chained st p1 p2 p3 -> chained st' p1 p2 p3.
Proof. unfold chained. by intros -> -> ->. Qed.

(** One turn of the loop over the years, when the id of the year is
    free: the archive page is a new object registered under that id;
    the posts of the year get their links; dates and ids stay. *)
Lemma archive_year_spec utcoffset site y posts st :
  pages st !! KStr (archive_id site y) = None ->
  exists h',
    archive_year utcoffset site y posts st
    = (Ok tt, State h' (<[KStr (archive_id site y) := length (heap st)]> (pages st)))
    /\ length h' = S (length (heap st))
    /\ (forall l k, (l < length (heap st))%nat ->
          k <> "prevpost" -> k <> "nextpost" ->
          attr (h' !!! l) k = attr (heap st !!! l) k)
    /\ (forall l, (l < length (heap st))%nat -> l ∉ posts ->
          h' !!! l = heap st !!! l)
    /\ (forall p1 p2 p3,
          posts ≡ₚ [p1; p2; p3] ->
          key_lt (sortkey_origin utcoffset (deref st p1))
                 (sortkey_origin utcoffset (deref st p2)) = true ->
          key_lt (sortkey_origin utcoffset (deref st p2))
                 (sortkey_origin utcoffset (deref st p3)) = true ->
          (p1 < length (heap st))%nat -> (p2 < length (heap st))%nat ->
          (p3 < length (heap st))%nat ->
          chained (State h' (<[KStr (archive_id site y) := length (heap st)]> (pages st)))
                  p1 p2 p3).
Proof.
  intros Hfree. rewrite (archive_year_run _ _ _ _ _ Hfree).
  set (sorted := sorted_by _ posts).
  set (st1 := State _ _).
  destruct (link_posts_spec (neighbours sorted) st1)
    as (h' & Hrun & Hlen & Hframe & Hother & Hlinks).
  subst st1. cbn [heap pages] in *.
  exists h'. split; [done|].
  split; [by rewrite Hlen, length_app; simpl; lia|].
  split; [|split].
  - intros l k Hl Hk1 Hk2. rewrite (Hframe l k Hk1 Hk2).
    by rewrite lookup_total_app_l.
  - intros l Hl Hnot. rewrite Hother; [by rewrite lookup_total_app_l|].
    unfold post_of. rewrite neighbours_posts. subst sorted.
    by rewrite sorted_by_perm.
  - intros p1 p2 p3 Hp K12 K23 V1 V2 V3.
    assert (Hs : sorted = [p1; p2; p3]).
    { subst sorted.
      by apply (sorted_by_three (fun l => sortkey_origin utcoffset (deref st l))). }
    rewrite Hs, neighbours_three in Hlinks.
    destruct (key_lt_chain _ _ _ K12 K23) as (N1 & N2 & N3).
    assert (Hne : p1 <> p2 /\ p2 <> p3 /\ p1 <> p3).
    { repeat split; intros ->.
      - destruct (key_le_total (sortkey_origin utcoffset (deref st p2))
                               (sortkey_origin utcoffset (deref st p2))); congruence.
      - destruct (key_le_total (sortkey_origin utcoffset (deref st p3))
                               (sortkey_origin utcoffset (deref st p3))); congruence.
      - destruct (key_le_total (sortkey_origin utcoffset (deref st p3))
                               (sortkey_origin utcoffset (deref st p3))); congruence. }
    destruct Hne as (Hne1 & Hne2 & Hne3).
    assert (Hnd : NoDup (map post_of
                    [(None, p1, Some p2); (Some p1, p2, Some p3); (Some p2, p3, None)])).
    { unfold post_of. simpl.
      repeat constructor; rewrite ?elem_of_cons, ?elem_of_nil; intuition congruence. }
    specialize (Hlinks Hnd).
    assert (Hv : forall p, (p < length (heap st))%nat ->
                 (p < length (heap st ++ [year_archive site sorted y]))%nat).
    { intros p Hp'. rewrite length_app. lia. }
    rewrite Hs in Hv.
    destruct (Hlinks None p1 (Some p2)) as [L1 L2]; [rewrite !elem_of_cons; auto|by apply Hv|].
    destruct (Hlinks (Some p1) p2 (Some p3)) as [L3 L4]; [rewrite !elem_of_cons; auto|by apply Hv|].
    destruct (Hlinks (Some p2) p3 None) as [L5 L6]; [rewrite !elem_of_cons; auto|by apply Hv|].
    unfold chained, deref. cbn [heap]. done.
Qed.

Lemma archive_years_step utcoffset site y posts rest st st1 :
  archive_year utcoffset site y posts st = (Ok tt, st1) ->
  archive_years utcoffset site ((y, posts) :: rest) st
  = archive_years utcoffset site rest st1.
Proof.
  intros H. cbn [archive_years]. unfold mbind, M_bind. by rewrite H.
Qed.

(** The loop over the years, when the ids of the years are free and no
    year comes twice: it completes; dates and ids stay; a page that is in
    no list stays as it was; the posts of a year of three are chained. *)
Lemma archive_years_spec utcoffset site L :
  forall st,
  NoDup L.*1 ->
  (forall y ps, (y, ps) ∈ L -> pages st !! KStr (archive_id site y) = None) ->
  exists st',
    archive_years utcoffset site L st = (Ok tt, st')
    /\ (length (heap st) <= length (heap st'))%nat
    /\ (forall l k, (l < length (heap st))%nat ->
          k <> "prevpost" -> k <> "nextpost" ->
          attr (deref st' l) k = attr (deref st l) k)
    /\ (forall l, (l < length (heap st))%nat ->
          (forall y ps, (y, ps) ∈ L -> l ∉ ps) ->
          deref st' l = deref st l)
    /\ (forall y posts p1 p2 p3,
          (y, posts) ∈ L ->
          posts ≡ₚ [p1; p2; p3] ->
          key_lt (sortkey_origin utcoffset (deref st p1))
                 (sortkey_origin utcoffset (deref st p2)) = true ->
          key_lt (sortkey_origin utcoffset (deref st p2))
                 (sortkey_origin utcoffset (deref st p3)) = true ->
          (p1 < length (heap st))%nat -> (p2 < length (heap st))%nat ->
          (p3 < length (heap st))%nat ->
          (forall y' ps, (y', ps) ∈ L -> y' <> y ->
             (p1 ∉ ps) /\ (p2 ∉ ps) /\ (p3 ∉ ps)) ->
          chained st' p1 p2 p3).
Proof.
  induction L as [|[y0 ps0] L IH]; intros st Hnd Hfree.
  - exists st. split; [done|]. split; [done|]. split; [done|]. split; [done|].
    intros ????? H. by apply elem_of_nil in H.
  - cbn [fmap list_fmap fst] in Hnd. apply NoDup_cons in Hnd as [Hy0 Hnd].
    assert (Hfree0 : pages st !! KStr (archive_id site y0) = None).
    { apply (Hfree y0 ps0). by left. }
    destruct (archive_year_spec utcoffset site y0 ps0 st Hfree0)
      as (h1 & Hrun1 & Hlen1 & Hframe1 & Hother1 & Hchain1).
    set (st1 := State h1 (<[KStr (archive_id site y0) := length (heap st)]> (pages st))) in *.
    assert (Hyne : forall y ps, (y, ps) ∈ L -> y <> y0).
    { intros y ps Hin ->. apply Hy0. apply list_elem_of_fmap. by exists (y0, ps). }
    destruct (IH st1 Hnd) as (st' & Hrun & Hlen & Hframe & Hother & Hchain).
    { intros y ps Hin. subst st1. cbn [pages].
      rewrite lookup_insert_ne.
      - apply (Hfree y ps). by right.
      - intros [= E%archive_id_inj]. by apply (Hyne y ps). }
    assert (Hl1 : length (heap st1) = S (length (heap st))) by done.
    exists st'. split; [by rewrite (archive_years_step _ _ _ _ _ _ _ Hrun1)|].
    split; [lia|]. split; [|split].
    + intros l k Hl Hk1 Hk2. rewrite Hframe by (done || lia).
      by apply Hframe1.
    + intros l Hl Hnot. rewrite Hother.
      * apply Hother1; [done|]. apply (Hnot y0 ps0). by left.
      * lia.
      * intros y ps Hin. apply (Hnot y ps). by right.
    + intros y posts p1 p2 p3 Hin Hp K12 K23 V1 V2 V3 Hdisj.
      apply elem_of_cons in Hin as [[= -> ->]|Hin].
      * apply (chained_ext st1).
        -- apply Hother; [lia|]. intros y' ps Hin'.
           apply (Hdisj y' ps); [by right|by apply (Hyne y' ps)].
        -- apply Hother; [lia|]. intros y' ps Hin'.
           apply (Hdisj y' ps); [by right|by apply (Hyne y' ps)].
        -- apply Hother; [lia|]. intros y' ps Hin'.
           apply (Hdisj y' ps); [by right|by apply (Hyne y' ps)].
        -- by apply Hchain1.
      * assert (Hk : forall p, (p < length (heap st))%nat ->
                     sortkey_origin utcoffset (deref st1 p)
                     = sortkey_origin utcoffset (deref st p)).
        { intros p Hp'. apply sortkey_origin_frame; by apply Hframe1. }
        apply (Hchain y posts); try done.
        -- by rewrite !Hk.
        -- by rewrite !Hk.
        -- lia.
        -- lia.
        -- lia.
        -- intros y' ps Hin' Hne. apply (Hdisj y' ps); [by right|done].
Qed.



Example archive_chain_run :
  match derive_archives utc default_site years_2020 posts_2020 with
  | (Ok _, st') =>
      attr (deref st' 2%nat) "nextpost" = VRef 0%nat
      /\ attr (deref st' 0%nat) "prevpost" = VRef 2%nat
      /\ pages st' !! KStr "2020" = Some 3%nat
      /\ attr (deref st' 3%nat) "entries" = VRefs [2%nat; 0%nat; 1%nat]
  | (Raise _, _) => False
  end.
Proof. vm_compute. done. Qed.

(* ===================================================================== *)
(** * Asset synchronizer *)
(* ===================================================================== *)

Section SyncFacts.

Variable excludes includes : string -> bool.
Variable lessc : string -> string + string.
Variable utime : Z -> Z.
Variable site : Site.
Variable deploy_path : string.

Local Abbreviation skip := (skipped excludes includes).
Local Abbreviation dest := (dest_of site deploy_path).
Local Abbreviation fresh := (up_to_date excludes includes site deploy_path).
Local Abbreviation step := (sync_file excludes includes lessc utime site deploy_path).
Local Abbreviation steps := (sync_files excludes includes lessc utime site deploy_path).

(** An up-to-date file is passed over: nothing changes and nothing is
    printed. *)
Lemma sync_file_up_to_date now e fs :
  fresh fs e -> step now e fs = Ok (fs, []).
Proof.
  intros [Hs|(s & d & Hsrc & Hdst & Hle)]; unfold sync_file.
  - by rewrite Hs.
  - destruct (skip e.2); [done|]. rewrite Hsrc, Hdst.
    apply Z.leb_le in Hle. by rewrite Hle.
Qed.

Lemma sync_files_up_to_date now l fs :
  Forall (fresh fs) l -> steps now l fs = Ok (fs, []).
Proof.
  induction 1 as [|e l He _ IH]; [done|].
  cbn [sync_files].
  rewrite (sync_file_up_to_date now e fs He). cbn. by rewrite IH.
Qed.

(** What one turn of the loop does to the files: only the destination
    of the file can change, it exists afterwards and is not older than
    the source, and it does not get older than it was. The clock matters
    for a source that [lessc] compiles, and the stamp of the copy for
    one that is copied. *)
Lemma sync_file_effect now e fs fs' out :
  step now e fs = Ok (fs', out) ->
  skip e.2 = false ->
  src_of e <> dest e ->
  ((splitext e.2).2 = ".less" ->
   forall s, fs !! src_of e = Some s -> mtime s <= now) ->
  ((splitext e.2).2 <> ".less" ->
   forall s, fs !! src_of e = Some s -> mtime s <= utime (mtime s)) ->
  fresh fs' e
  /\ (forall p, p <> dest e -> fs' !! p = fs !! p)
  /\ (forall d, fs !! dest e = Some d ->
        exists d', fs' !! dest e = Some d' /\ mtime d <= mtime d').
Proof.
  unfold sync_file. intros H Hsk Hne Hclock Hcopy. rewrite Hsk in H.
  destruct (fs !! src_of e) as [s|] eqn:Hsrc; [|done].
  destruct (fs !! dest e) as [d|] eqn:Hdst.
  - destruct (mtime s <=? mtime d) eqn:Hle.
    + injection H as <- <-. apply Z.leb_le in Hle.
      split; [right; by exists s, d|]. split; [done|].
      intros d0 [= <-]. exists d. split; [done|lia].
    + apply Z.leb_gt in Hle.
      apply bind_Ok_inv in H as (fs1 & Hact & [= <- <-]).
      unfold run_action in Hact. case_decide as Hext.
      * destruct (lessc (content s)) as [css|err]; [|done].
        injection Hact as <-. specialize (Hclock Hext s eq_refl).
        split; [right; exists s, (File now css)|split].
        -- rewrite lookup_insert_ne by done. by rewrite lookup_insert_eq.
        -- intros p Hp. by rewrite lookup_insert_ne.
        -- intros d0 [= <-]. exists (File now css).
           rewrite lookup_insert_eq. split; [done|]. simpl. lia.
      * injection Hact as <-. specialize (Hcopy Hext s eq_refl).
        split; [right; exists s, (File (utime (mtime s)) (content s))|split].
        -- rewrite lookup_insert_ne by done. by rewrite lookup_insert_eq.
        -- intros p Hp. by rewrite lookup_insert_ne.
        -- intros d0 [= <-]. exists (File (utime (mtime s)) (content s)).
           rewrite lookup_insert_eq. split; [done|]. simpl. lia.
  - apply bind_Ok_inv in H as (fs1 & Hact & [= <- <-]).
    unfold run_action in Hact. case_decide as Hext.
    + destruct (lessc (content s)) as [css|err]; [|done].
      injection Hact as <-. specialize (Hclock Hext s eq_refl).
      split; [right; exists s, (File now css)|split].
      * rewrite lookup_insert_ne by done. by rewrite lookup_insert_eq.
      * intros p Hp. by rewrite lookup_insert_ne.
      * done.
    + injection Hact as <-. specialize (Hcopy Hext s eq_refl).
      split; [right; exists s, (File (utime (mtime s)) (content s))|split].
      * rewrite lookup_insert_ne by done. by rewrite lookup_insert_eq.
      * intros p Hp. by rewrite lookup_insert_ne.
      * done.
Qed.

Lemma sync_file_skipped now e fs :
  skip e.2 = true -> step now e fs = Ok (fs, []).
Proof. intros H. apply sync_file_up_to_date. by left. Qed.

(** A file that is up to date stays so while other files are
    processed, as long as none of them writes over its source. *)
Lemma up_to_date_kept fs fs' e e0 :
  (forall p, p <> dest e -> fs' !! p = fs !! p) ->
  (forall d, fs !! dest e = Some d ->
     exists d', fs' !! dest e = Some d' /\ mtime d <= mtime d') ->
  src_of e0 <> dest e ->
  fresh fs e0 -> fresh fs' e0.
Proof.
  intros Hframe Hmono Hne [Hs|(s & d & Hsrc & Hdst & Hle)]; [by left|].
  right. destruct (decide (dest e0 = dest e)) as [E|E].
  - rewrite E in Hdst. destruct (Hmono d Hdst) as (d' & Hd' & Hle').
    exists s, d'. rewrite Hframe by done. rewrite E. split; [done|].
    split; [done|lia].
  - exists s, d. by rewrite !Hframe.
Qed.

Lemma sync_files_cons now e l fs r :
  steps now (e :: l) fs = Ok r ->
  exists fs1 out1 fs2 out2,
    step now e fs = Ok (fs1, out1)
    /\ steps now l fs1 = Ok (fs2, out2)
    /\ r = (fs2, out1 ++ out2).
Proof.
  cbn [sync_files].
  intros ([fs1 out1] & H1 & H)%bind_Ok_inv.
  apply bind_Ok_inv in H as ([fs2 out2] & H2 & [= <-]).
  by exists fs1, out1, fs2, out2.
Qed.

(** After a run every file it visited is up to date. *)
Lemma sync_files_fresh now l :
  forall fs fs' out,
  (forall e e', e ∈ l -> e' ∈ l ->
     skip e.2 = false -> skip e'.2 = false -> src_of e <> dest e') ->
  (forall e s, e ∈ l -> skip e.2 = false -> (splitext e.2).2 = ".less" ->
     fs !! src_of e = Some s -> mtime s <= now) ->
  (forall e s, e ∈ l -> skip e.2 = false -> (splitext e.2).2 <> ".less" ->
     fs !! src_of e = Some s -> mtime s <= utime (mtime s)) ->
  steps now l fs = Ok (fs', out) ->
  Forall (fresh fs') l
  /\ (forall e0, (forall e, e ∈ l -> skip e.2 = false -> src_of e0 <> dest e) ->
        fresh fs e0 -> fresh fs' e0)
  /\ (forall p, (forall e, e ∈ l -> skip e.2 = false -> p <> dest e) ->
        fs' !! p = fs !! p).
Proof.
  induction l as [|e l IH]; intros fs fs' out Hdisj Hclock Hcopy H.
  - injection H as <- <-. by repeat split.
  - apply sync_files_cons in H as (fs1 & out1 & fs2 & out2 & H1 & H2 & [= -> ->]).
    destruct (skip e.2) eqn:Hsk.
    + rewrite (sync_file_skipped now e fs Hsk) in H1. injection H1 as <- <-.
      destruct (IH fs fs2 out2) as (Hall & Hkeep & Hframe); [| | |done|].
      { intros e1 e2 ?? . apply Hdisj; by right. }
      { intros e1 s ?. apply Hclock. by right. }
      { intros e1 s ?. apply Hcopy. by right. }
      split; [constructor; [by left|done]|]. split.
      * intros e0 Hne. apply Hkeep. intros e1 ??. apply Hne; [by right|done].
      * intros p Hp. apply Hframe. intros e1 ??. apply Hp; [by right|done].
    + destruct (sync_file_effect now e fs fs1 out1 H1 Hsk) as (Hup & Hfr1 & Hmono).
      { apply Hdisj; (by left) || done. }
      { intros Hext s Hs. apply (Hclock e s); (by left) || done. }
      { intros Hext s Hs. apply (Hcopy e s); (by left) || done. }
      destruct (IH fs1 fs2 out2) as (Hall & Hkeep & Hframe); [| | |done|].
      { intros e1 e2 ??. apply Hdisj; by right. }
      { intros e1 s Hin Hsk1 Hext Hs. apply (Hclock e1 s); [by right|done|done|].
        rewrite <- Hs. symmetry. apply Hfr1.
        apply Hdisj; [by right|by left|done|done]. }
      { intros e1 s Hin Hsk1 Hext Hs. apply (Hcopy e1 s); [by right|done|done|].
        rewrite <- Hs. symmetry. apply Hfr1.
        apply Hdisj; [by right|by left|done|done]. }
      split; [constructor; [|done]|split].
      * apply Hkeep; [|done]. intros e1 Hin Hsk1.
        apply Hdisj; [by left|by right|done|done].
      * intros e0 Hne Hup0. apply Hkeep.
        -- intros e1 ??. apply Hne; [by right|done].
        -- eapply up_to_date_kept; [exact Hfr1|exact Hmono| |done].
           apply Hne; [by left|done].
      * intros p Hp. rewrite Hframe.
        -- apply Hfr1. apply Hp; [by left|done].
        -- intros e1 ??. apply Hp; [by right|done].
Qed.

End SyncFacts.


(** A copied file whose stamp the copy does not keep is copied again by
    every run: the copy is older than its source. *)
Example sync_copy_again :
  match sync no_match no_match lessc_same whole_thousands default_site
          "/site/deploy" 100000 [(".", ["robots.txt"])]
          {[ "./robots.txt" := File 50001 "User-agent: *" ]} with
  | Ok (fs1, out1) =>
      out1 = [("./robots.txt", "/site/deploy/./robots.txt")]
      /\ mtime <$> fs1 !! "/site/deploy/./robots.txt" = Some 50000
      /\ match sync no_match no_match lessc_same whole_thousands default_site
                  "/site/deploy" 100001 [(".", ["robots.txt"])] fs1 with
         | Ok (_, out2) => out2 = out1
         | Raise _ => False
         end
  | Raise _ => False
  end.
Proof. vm_compute. done. Qed.



(* ===================================================================== *)
(** * The excerpt markers: the fuel is enough *)
(* ===================================================================== *)

Lemma str_drop_length n s : (String.length (str_drop n s) <= String.length s)%nat.
Proof.
  revert s. induction n as [|n IH]; intros [|c s]; simpl; try lia.
  specialize (IH s). lia.
Qed.

Lemma partition_length sep s a b :
  partition sep s = Some (a, b) ->
  (String.length b + String.length sep <= String.length s)%nat.
Proof.
  revert a b. induction s as [|c s IH]; intros a b.
  - cbn [partition]. destruct (starts_with sep "") eqn:E; [|done].
    intros [= <- <-]. destruct sep; [simpl; lia|done].
  - cbn [partition]. destruct (starts_with sep (String c s)) eqn:E.
    + intros [= <- <-]. clear IH. revert E. generalize (String c s) as t.
      induction sep as [|x sep IH]; intros t E; [simpl; lia|].
      destruct t as [|y t]; [done|]. cbn [starts_with] in E.
      apply andb_true_iff in E as [_ E]. specialize (IH t E).
      cbn [String.length str_drop]. lia.
    + destruct (partition sep s) as [[a' b']|] eqn:Hp; [|done].
      intros [= <- <-]. specialize (IH a' b' eq_refl). simpl. lia.
Qed.

(** The substitution of the excerpt markers is run with the length of
    the body as fuel; no larger amount changes its result. *)
Lemma summary_sub_fuel markdown n m body (self : Page) :
  (String.length body <= n)%nat -> (String.length body <= m)%nat ->
  summary_sub markdown n body self = summary_sub markdown m body self.
Proof.
  revert m body self. induction n as [|n IH]; intros m body self Hn Hm.
  - destruct body; [|simpl in Hn; lia]. by destruct m.
  - destruct m as [|m].
    + destruct body; [done|simpl in Hm; lia].
    + cbn [summary_sub].
      destruct (partition "<summary>" body) as [[before rest]|] eqn:H1; [|done].
      destruct (partition "</summary>" rest) as [[inner after]|] eqn:H2; [|done].
      apply partition_length in H1, H2. cbn [String.length] in H1, H2.
      rewrite (IH m after); [done|lia|lia].
Qed.

(* ===================================================================== *)
(** * The content loop files every page under one year *)
(* ===================================================================== *)

Lemma load_page_filed yaml_load markdown parse_time site name mt text
    (years years' : gmap Z (list loc)) (st st' : state) :
  load_page yaml_load markdown parse_time site name mt text years st
  = (Ok years', st') ->
  filed years (length (heap st)) ->
  length (heap st') = S (length (heap st))
  /\ filed years' (length (heap st')).
Proof.
  unfold load_page, mbind, M_bind, lift, alloc.
  destruct (ContentPage yaml_load markdown parse_time site name mt text)
    as [self|e]; [|done].
  pose proof (add_cases (length (heap st)) (State (heap st ++ [self]) (pages st)))
    as Hadd.
  rewrite deref_alloc in Hadd. cbn [heap pages] in Hadd.
  destruct (hash_key (attr self "id")) as [k|]; [|by rewrite Hadd].
  destruct (pages st !! k); [by destruct Hadd as (e & -> & _)|].
  rewrite Hadd. intros H [Hb Hd].
  assert (Hold : filed years (S (length (heap st)))).
  { split; [|done]. intros y ps l Hy Hl. specialize (Hb y ps l Hy Hl). lia. }
  destruct (attr self "date") as [| | | |t| | | | |];
    injection H as <- <-; cbn [heap]; rewrite length_app; cbn [length];
    replace (length (heap st) + 1)%nat with (S (length (heap st))) by lia;
    try (split; [done|exact Hold]).
  split; [done|]. split.
  - intros y ps l Hy Hl.
    destruct (decide (y = year t)) as [->|Hne].
    + rewrite lookup_insert_eq in Hy. injection Hy as <-.
      apply elem_of_app in Hl as [Hl|Hl%list_elem_of_singleton]; [|lia].
      destruct (years !! year t) as [ps0|] eqn:E; simpl in Hl.
      * specialize (Hb _ _ _ E Hl). lia.
      * by apply elem_of_nil in Hl.
    + rewrite lookup_insert_ne in Hy by done. specialize (Hb y ps l Hy Hl). lia.
  - intros y y' ps ps' l Hne Hy Hy' Hl Hl'.
    destruct (decide (y = year t)) as [->|Hn1].
    + rewrite lookup_insert_eq in Hy. injection Hy as <-.
      rewrite lookup_insert_ne in Hy' by done.
      apply elem_of_app in Hl as [Hl|Hl%list_elem_of_singleton].
      * destruct (years !! year t) as [ps0|] eqn:E; simpl in Hl.
        -- by apply (Hd (year t) y' ps0 ps' l).
        -- by apply elem_of_nil in Hl.
      * subst l. specialize (Hb y' ps' _ Hy' Hl'). lia.
    + rewrite lookup_insert_ne in Hy by done.
      destruct (decide (y' = year t)) as [->|Hn2].
      * rewrite lookup_insert_eq in Hy'. injection Hy' as <-.
        apply elem_of_app in Hl' as [Hl'|Hl'%list_elem_of_singleton].
        -- destruct (years !! year t) as [ps0|] eqn:E; simpl in Hl'.
           ++ by apply (Hd y (year t) ps ps0 l).
           ++ by apply elem_of_nil in Hl'.
        -- subst l. specialize (Hb y ps _ Hy Hl). lia.
      * rewrite lookup_insert_ne in Hy' by done.
        by apply (Hd y y' ps ps' l).
Qed.

(* ===================================================================== *)
(** * Further properties: neighbours *)
(* ===================================================================== *)

Lemma removelast_lookup {A} (L : list A) j :
  (S j < length L)%nat -> removelast L !! j = L !! j.
Proof.
  intros H. rewrite removelast_firstn_len.
  change (firstn ?n ?l) with (take n l). apply lookup_take_lt. lia.
Qed.

Lemma lookup_map {A B} (f : A -> B) (l : list A) (i : nat) :
  map f l !! i = f <$> (l !! i).
Proof. revert i. induction l as [|x l IH]; intros [|i]; simpl; auto. Qed.

Lemma neighbours_at {A} (L : list A) (i : nat) :
  length (neighbours L) = length L
  /\ neighbours L !! i
     = match L !! i with
       | Some x => Some (match i with O => None | S j => L !! j end, x, L !! S i)
       | None => None
       end.
Proof.
  unfold neighbours.
  assert (Ha : length (None :: map Some (removelast L)) = Nat.max 1 (length L)).
  { cbn [length]. rewrite length_map.
    induction L as [|x L _] using rev_ind; [done|].
    rewrite removelast_last, length_app. simpl. lia. }
  assert (Hb : length (map Some (tail L) ++ [None]) = Nat.max 1 (length L)).
  { rewrite length_app, length_map. destruct L; simpl; lia. }
  split.
  { rewrite !length_zip_with, Ha, Hb. lia. }
  rewrite !lookup_zip_with.
  destruct (L !! i) as [x|] eqn:Hx.
  - pose proof (lookup_lt_Some _ _ _ Hx) as Hi.
    assert (H1 : (None :: map Some (removelast L)) !! i
                 = Some (match i with O => None | S j => L !! j end)).
    { destruct i as [|j]; [done|].
      change (map Some (removelast L) !! j = Some (L !! j)).
      rewrite lookup_map, removelast_lookup by lia.
      destruct (L !! j) eqn:Hj; [done|].
      apply lookup_ge_None in Hj. lia. }
    assert (H2 : (map Some (tail L) ++ [None]) !! i = Some (L !! S i)).
    { destruct (L !! S i) as [y|] eqn:Hy.
      - rewrite lookup_app_l.
        + by rewrite lookup_map, lookup_tail, Hy.
        + rewrite length_map. apply lookup_lt_Some in Hy.
          destruct L; simpl in *; lia.
      - apply lookup_ge_None in Hy.
        assert (i = length (map Some (tail L))) as Hlen.
        { rewrite length_map. destruct L; simpl in *; lia. }
        rewrite Hlen at 1. by rewrite list_lookup_middle. }
    rewrite H1. cbn. rewrite H2. done.
  - cbn. destruct ((None :: map Some (removelast L)) !! i); done.
Qed.

(** X1. [neighbours] pairs every element with the one before it and the
    one after it, [None] standing in at the two ends; it has as many
    triples as the list has elements. *)
Theorem neighbours_lookup {A} (L : list A) (i : nat) :
  length (neighbours L) = length L
  /\ neighbours L !! i
     = match L !! i with
       | Some x => Some (match i with O => None | S j => L !! j end, x, L !! S i)
       | None => None
       end.
Proof. apply neighbours_at. Qed.


(* ===================================================================== *)
(** * Further properties: the registry *)
(* ===================================================================== *)



Lemma slice_limit_none {A} (l : list A) : slice_limit None l = l.
Proof. done. Qed.

Lemma elem_of_List_filter {A} (f : A -> bool) (l : list A) x :
  x ∈ List.filter f l <-> x ∈ l /\ f x = true.
Proof. rewrite !list_elem_of_In. apply filter_In. Qed.


(** X5. With the same sort key, the newest-first listing is the
    chronological listing read backwards, dated pages only or not. *)
Theorem select_reverse (utcoffset : datetime -> Z) (st : state)
    (dated sortby_origin : bool) :
  select utcoffset st None dated false (Some sortby_origin)
  = rev (select utcoffset st None dated true (Some sortby_origin)).
Proof.
  unfold select. cbn [default negb slice_limit].
  destruct dated; [|done]. apply List.filter_rev.
Qed.

(* ===================================================================== *)
(** * Further properties: the normalizer *)
(* ===================================================================== *)

Lemma collapse_slashes_head s :
  starts_with "/" (collapse_slashes s) = starts_with "/" s.
Proof.
  induction s as [|c s IH]; [done|].
  rewrite collapse_slashes_step.
  destruct (Ascii.eqb c "/" && starts_with "/" s) eqn:E; [|done].
  apply andb_true_iff in E as [Hc Hs]. rewrite IH, Hs.
  apply Ascii.eqb_eq in Hc as ->. done.
Qed.

Lemma collapse_slashes_single s : contains "//" (collapse_slashes s) = false.
Proof.
  induction s as [|c s IH]; [done|].
  rewrite collapse_slashes_step.
  destruct (Ascii.eqb c "/" && starts_with "/" s) eqn:E; [done|].
  rewrite contains_step, starts_with_step, IH, collapse_slashes_head.
  by rewrite (Ascii.eqb_sym "/" c), E.
Qed.

Lemma starts_with_app_l a s t :
  s <> "" -> starts_with (String a "") (s +:+ t) = starts_with (String a "") s.
Proof. by destruct s. Qed.

Lemma contains_app_no_slash s t :
  contains "//" s = false -> starts_with "/" t = false ->
  contains "//" t = false ->
  contains "//" (s +:+ t) = false.
Proof.
  intros Hs Ht Ht'. induction s as [|c s IH]; [done|].
  rewrite contains_step, starts_with_step in Hs.
  apply orb_false_iff in Hs as [H1 H2].
  change (String c s +:+ t) with (String c (s +:+ t)).
  rewrite contains_step, starts_with_step, (IH H2), orb_false_r.
  destruct s as [|d s]; [|exact H1].
  change ("" +:+ t) with t. by rewrite Ht, andb_false_r.
Qed.

(** X6. Whatever its parts, [join_url] returns a text without two
    slashes in a row. *)
Theorem join_url_no_double_slash (site : Site) (parts : list value) (ext : value) :
  contains "//" (join_url site parts ext) = false.
Proof.
  unfold join_url. apply contains_app_no_slash.
  - apply collapse_slashes_single.
  - by destruct (truthy ext && negb (truthy (clean_urls site))).
  - by destruct (truthy ext && negb (truthy (clean_urls site))).
Qed.

Lemma lower_char_hyphen c :
  lower_char (hyphen_to_space c) = hyphen_to_space (lower_char c).
Proof. destruct c as [[] [] [] [] [] [] [] []]; reflexivity. Qed.

Lemma hyphen_to_space_class c :
  dash_or_space (hyphen_to_space c) = dash_or_space c
  /\ (dash_or_space c = false -> hyphen_to_space c = c).
Proof. destruct c as [[] [] [] [] [] [] [] []]; split; (reflexivity || discriminate). Qed.

Lemma lower_idempotent s : lower (lower s) = lower s.
Proof. apply lower_fixed, lower_forall. Qed.

(** X7. [norm_key] does not tell upper case from lower case, nor a
    hyphen from a space: keys that differ only in these collide. *)
Theorem norm_key_collisions (s : string) :
  norm_key (lower s) = norm_key s
  /\ norm_key (str_map hyphen_to_space s) = norm_key s.
Proof.
  split; [unfold norm_key; by rewrite lower_idempotent|].
  unfold norm_key.
  enough (forall b, sub_runs dash_or_space "_" b (lower (str_map hyphen_to_space s))
                    = sub_runs dash_or_space "_" b (lower s)) as H by apply H.
  induction s as [|c s IH]; intros b; [done|].
  cbn [str_map lower sub_runs].
  rewrite lower_char_hyphen.
  destruct (hyphen_to_space_class (lower_char c)) as [-> Hid].
  destruct (dash_or_space (lower_char c)).
  - destruct b; by rewrite IH.
  - by rewrite (Hid eq_refl), IH.
Qed.

Lemma str_filter_fixed p s : str_forall p s = true -> str_filter p s = s.
Proof.
  induction s as [|c s IH]; simpl; [done|].
  intros [-> Hs]%andb_true_iff. by rewrite IH.
Qed.

Lemma norm_tags_fixed (tags : list string) :
  Forall (fun t => nonempty t = true /\ str_forall is_alnum t = true) tags ->
  List.filter nonempty (map alphanum tags) = tags.
Proof.
  induction 1 as [|t tags [Hn Ha] _ IH]; [done|].
  assert (E : alphanum t = t) by (by apply str_filter_fixed).
  cbn [map List.filter]. by rewrite E, Hn, IH.
Qed.

(** X8. [norm_tags] is idempotent: applied to the tuple it returned, it
    returns the same tuple; every tag in it is a non-empty run of
    letters and digits. *)
Theorem norm_tags_idempotent (obj : value) (tags : list string) :
  norm_tags obj = Ok tags ->
  norm_tags (VTuple tags) = Ok tags
  /\ Forall (fun t => nonempty t = true /\ str_forall is_alnum t = true) tags.
Proof.
  intros H.
  assert (Hf : Forall (fun t => nonempty t = true /\ str_forall is_alnum t = true) tags).
  { destruct obj; try done; cbn [norm_tags] in H.
    - injection H as <-. apply filter_nonempty_alnum.
    - destruct (strs_of l); [|done]. injection H as <-. apply filter_nonempty_alnum.
    - injection H as <-. apply filter_nonempty_alnum.
    - injection H as <-. apply filter_nonempty_alnum. }
  split; [|done]. cbn [norm_tags]. by rewrite norm_tags_fixed.
Qed.

Lemma norm_tags_idempotent_witness :
  norm_tags (VTuple ["web"; "Rocq9"]) = Ok ["web"; "Rocq9"]
  /\ Forall (fun t => nonempty t = true /\ str_forall is_alnum t = true)
            ["web"; "Rocq9"].
Proof.
  apply (norm_tags_idempotent (VStr "web, Rocq-9") ["web"; "Rocq9"]).
  reflexivity.
Defined.

(* ===================================================================== *)
(** * Further properties: front matter and body *)
(* ===================================================================== *)

Lemma starts_with_app p s : starts_with p (p +:+ s) = true.
Proof.
  induction p as [|c p IH]; [done|].
  change (String c p +:+ s) with (String c (p +:+ s)).
  by rewrite starts_with_step, Ascii.eqb_refl, IH.
Qed.

Lemma str_drop_app p s : str_drop (String.length p) (p +:+ s) = s.
Proof. induction p as [|c p IH]; [done|]. exact IH. Qed.

Lemma starts_with_split p s :
  starts_with p s = true -> s = p +:+ str_drop (String.length p) s.
Proof.
  revert s. induction p as [|c p IH]; intros s; [done|].
  destruct s as [|d s]; [done|]. rewrite starts_with_step.
  intros [->%Ascii.eqb_eq H]%andb_true_iff.
  change (String d p +:+ ?t) with (String d (p +:+ t)).
  cbn [String.length str_drop]. by rewrite <- (IH s H).
Qed.

(** The first occurrence: the text is the part before, the separator
    and the part after, and no decomposition has a shorter part
    before. *)
Lemma partition_first sep s a b :
  partition sep s = Some (a, b) ->
  s = a +:+ sep +:+ b
  /\ forall a' b', s = a' +:+ sep +:+ b' ->
       (String.length a <= String.length a')%nat.
Proof.
  revert a b. induction s as [|c s IH]; intros a b.
  - cbn [partition]. destruct (starts_with sep "") eqn:E; [|done].
    intros [= <- <-]. split; [by apply starts_with_split|]. intros; simpl; lia.
  - cbn [partition]. destruct (starts_with sep (String c s)) eqn:E.
    + intros [= <- <-]. split; [by apply starts_with_split|]. intros; simpl; lia.
    + destruct (partition sep s) as [[a0 b0]|] eqn:Hp; [|done].
      intros [= <- <-]. destruct (IH a0 b0 eq_refl) as [Hs Hmin].
      split.
      * change (String c a0 +:+ ?t) with (String c (a0 +:+ t)). by rewrite <- Hs.
      * intros a' b' Heq. destruct a' as [|c' a'].
        -- change ("" +:+ ?t) with t in Heq.
           rewrite Heq, starts_with_app in E. done.
        -- change (String c' a' +:+ ?t) with (String c' (a' +:+ t)) in Heq.
           injection Heq as -> Heq. specialize (Hmin a' b' Heq). simpl. lia.
Qed.

Lemma partition_present sep s :
  contains sep s = true -> exists a b, partition sep s = Some (a, b).
Proof.
  induction s as [|c s IH].
  - cbn [contains partition]. rewrite orb_false_r. intros ->. by eexists _, _.
  - rewrite contains_step. cbn [partition].
    destruct (starts_with sep (String c s)); [by eexists _, _|].
    intros H. destruct (IH H) as (a & b & ->). by eexists _, _.
Qed.

(** X9. A text with a blank line is split at its first blank line: the
    front matter, the blank line and the body make up the text, and no
    blank line comes earlier. *)
Theorem head_and_body_first_blank_line (text h b : string) :
  contains blank_line text = true ->
  head_and_body text = (h, b) ->
  text = h +:+ blank_line +:+ b
  /\ forall h' b', text = h' +:+ blank_line +:+ b' ->
       (String.length h <= String.length h')%nat.
Proof.
  intros Hc. unfold head_and_body, split1.
  destruct (partition_present _ _ Hc) as (a & b0 & Hp). rewrite Hp.
  intros [= <- <-]. by apply partition_first.
Qed.

Lemma head_and_body_first_blank_line_witness :
  sample_text = "title: Hello" +:+ blank_line +:+ ("First." +:+ blank_line +:+ "Second.")
  /\ forall h' b', sample_text = h' +:+ blank_line +:+ b' ->
       (String.length "title: Hello" <= String.length h')%nat.
Proof.
  apply (head_and_body_first_blank_line sample_text "title: Hello"
           ("First." +:+ blank_line +:+ "Second.")); reflexivity.
Defined.

(* ===================================================================== *)
(** * Further properties: the content parser *)
(* ===================================================================== *)

Lemma apply_head_other markdown parse_time items (self self' : Page) k :
  Forall (fun kv => norm_key kv.1 <> k) items ->
  apply_head markdown parse_time items self = Ok self' ->
  attr self' k = attr self k.
Proof.
  revert self. induction items as [|[k0 v] items IH]; intros self Hf H.
  - by injection H as <-.
  - inversion Hf as [|?? Hk Hrest]; subst. cbn [apply_head] in H.
    apply bind_Ok_inv in H as (v' & _ & H).
    rewrite (IH _ Hrest H). by apply attr_insert_ne.
Qed.

Lemma normalize_time markdown parse_time k v v' :
  k = "date" \/ k = "posted" ->
  normalize markdown parse_time k v = Ok v' -> time_or_none v'.
Proof.
  intros Hk. unfold normalize. rewrite decide_True by done.
  unfold norm_time. destruct (truthy v).
  - intros (t & _ & [= <-])%bind_Ok_inv. right. by exists t.
  - intros [= <-]. by left.
Qed.

Lemma apply_head_times markdown parse_time items (self self' : Page) k :
  k = "date" \/ k = "posted" ->
  time_or_none (attr self k) ->
  apply_head markdown parse_time items self = Ok self' ->
  time_or_none (attr self' k).
Proof.
  intros Hk. revert self. induction items as [|[k0 v] items IH]; intros self Ht H.
  - by injection H as <-.
  - cbn [apply_head] in H. apply bind_Ok_inv in H as (v' & Hv & H).
    refine (IH _ _ H). clear IH H.
    destruct (decide (norm_key k0 = k)) as [E|E].
    + rewrite E, attr_insert_eq. rewrite E in Hv. by eapply normalize_time.
    + by rewrite attr_insert_ne.
Qed.

Lemma dated_update_other site id0 (self self' : Page) k :
  k <> "id" -> k <> "template" -> k <> "month_name" ->
  k <> "prevpost" -> k <> "nextpost" ->
  dated_update site id0 self = Ok self' ->
  attr self' k = attr self k.
Proof.
  intros ?????. unfold dated_update.
  destruct (truthy (attr self "date")); [|by intros [= <-]].
  destruct (attr self "date"); try done.
  intros (mn & _ & [= <-])%bind_Ok_inv.
  unfold update. cbn [fold_left fst snd]. by rewrite !attr_insert_ne.
Qed.

Lemma dated_update_undated site id0 (self self' : Page) :
  truthy (attr self "date") = false ->
  dated_update site id0 self = Ok self' -> self' = self.
Proof. unfold dated_update. intros ->. by intros [= <-]. Qed.

Lemma dated_update_links site id0 (self self' : Page) :
  truthy (attr self "date") = true ->
  dated_update site id0 self = Ok self' ->
  attr self' "prevpost" = VNone /\ attr self' "nextpost" = VNone.
Proof.
  unfold dated_update. intros ->.
  destruct (attr self "date"); try done.
  intros (mn & _ & [= <-])%bind_Ok_inv.
  unfold update. cbn [fold_left fst snd].
  split; [by rewrite attr_insert_ne, attr_insert_eq|apply attr_insert_eq].
Qed.

(** The stages of the parser, for a page it produces. *)
Lemma ContentPage_stages yaml_load markdown parse_time site name mt text (pg : Page) :
  ContentPage yaml_load markdown parse_time site name mt text = Ok pg ->
  exists items self1 self2,
    yaml_load (head_and_body text).1 = VMap items
    /\ apply_head markdown parse_time items
         (Page_init (VStr (splitext (basename name)).1) []
            [("modified", VTime mt)]) = Ok self1
    /\ dated_update site (splitext (basename name)).1 self1 = Ok self2
    /\ forall k, k <> "summary" -> k <> "content" -> attr pg k = attr self2 k.
Proof.
  unfold ContentPage. destruct (head_and_body text) as [h b].
  intros (items & Hitems & H)%bind_Ok_inv.
  apply bind_Ok_inv in H as (self1 & Hhead & H).
  apply bind_Ok_inv in H as (self2 & Hupd & H).
  pose proof (summary_sub_attr markdown (String.length b) b self2) as Hsum.
  destruct (summary_sub markdown (String.length b) b self2) as [body' self3].
  injection H as <-. simpl in Hsum.
  exists items, self1, self2.
  split. { cbn [fst]. unfold items_of in Hitems.
           destruct (yaml_load h); try done. by injection Hitems as ->. }
  split; [done|]. split; [done|].
  intros k Hk1 Hk2. rewrite attr_insert_ne by done. by apply Hsum.
Qed.

Lemma Page_init_content_attrs id0 mt :
  attr (Page_init (VStr id0) [] [("modified", VTime mt)]) "date" = VNone
  /\ attr (Page_init (VStr id0) [] [("modified", VTime mt)]) "posted" = VNone
  /\ attr (Page_init (VStr id0) [] [("modified", VTime mt)]) "id" = VStr id0
  /\ attr (Page_init (VStr id0) [] [("modified", VTime mt)]) "template" = VStr "".
Proof.
  unfold Page_init, update, attr. cbn [fold_left fst snd py_str].
  repeat split; rewrite ?lookup_total_insert_ne by done; apply lookup_total_insert_eq.
Qed.

(** X10. On every page the parser produces, [date] and [posted] are
    [None] or a [datetime], whatever the front matter holds; a page with
    a date starts with both links to its neighbours set to [None]. *)
Theorem content_page_times yaml_load markdown parse_time site name mt text (pg : Page) :
  ContentPage yaml_load markdown parse_time site name mt text = Ok pg ->
  time_or_none (attr pg "date")
  /\ time_or_none (attr pg "posted")
  /\ (if truthy (attr pg "date")
      then attr pg "prevpost" = VNone /\ attr pg "nextpost" = VNone
      else True).
Proof.
  intros (items & self1 & self2 & _ & Hhead & Hupd & Hpg)%ContentPage_stages.
  destruct (Page_init_content_attrs (splitext (basename name)).1 mt)
    as (Hd & Hp & _ & _).
  rewrite !Hpg by done.
  rewrite (dated_update_other _ _ _ _ "posted" ltac:(done) ltac:(done)
             ltac:(done) ltac:(done) ltac:(done) Hupd).
  rewrite (dated_update_date _ _ _ _ Hupd).
  split; [|split].
  - eapply apply_head_times; [by left| |exact Hhead]. rewrite Hd. by left.
  - eapply apply_head_times; [by right| |exact Hhead]. rewrite Hp. by left.
  - destruct (truthy (attr self1 "date")) eqn:E; [|done].
    by apply (dated_update_links site (splitext (basename name)).1 self1).
Qed.

Lemma content_page_times_witness :
  exists pg : Page,
    ContentPage sample_yaml (fun s => s) sample_parse_time default_site
      "content/first.post.md" epoch "date: 2020-01-01" = Ok pg
    /\ time_or_none (attr pg "date")
    /\ time_or_none (attr pg "posted")
    /\ (if truthy (attr pg "date")
        then attr pg "prevpost" = VNone /\ attr pg "nextpost" = VNone
        else True).
Proof.
  assert (H : match ContentPage sample_yaml (fun s => s) sample_parse_time
                      default_site "content/first.post.md" epoch "date: 2020-01-01" with
              | Ok _ => true
              | Raise _ => false
              end = true) by (vm_compute; reflexivity).
  destruct (ContentPage sample_yaml (fun s => s) sample_parse_time default_site
              "content/first.post.md" epoch "date: 2020-01-01") as [pg|e] eqn:E;
    [|discriminate H].
  exists pg. split; [reflexivity|].
  exact (content_page_times sample_yaml (fun s => s) sample_parse_time
           default_site "content/first.post.md" epoch "date: 2020-01-01" pg E).
Defined.

(** X11. A page the parser produces without a date keeps the basename
    of its file as id, unless the front matter sets an id, and gets no
    default template: the template is the one of the front matter, the
    empty text when there is none. *)
Theorem undated_page_id_template yaml_load markdown parse_time site name mt text
    (pg : Page) :
  ContentPage yaml_load markdown parse_time site name mt text = Ok pg ->
  truthy (attr pg "date") = false ->
  exists (items : list (string * value)) (self : Page),
    yaml_load (head_and_body text).1 = VMap items
    /\ apply_head markdown parse_time items
         (Page_init (VStr (splitext (basename name)).1) []
            [("modified", VTime mt)]) = Ok self
    /\ attr pg "id" = attr self "id"
    /\ attr pg "template" = attr self "template"
    /\ (if bool_decide (Forall (fun kv => norm_key kv.1 <> "id") items)
        then attr pg "id" = VStr (splitext (basename name)).1 else True)
    /\ (if bool_decide (Forall (fun kv => norm_key kv.1 <> "template") items)
        then attr pg "template" = VStr "" else True).
Proof.
  intros H Hdate.
  destruct (ContentPage_stages _ _ _ _ _ _ _ _ H)
    as (items & self1 & self2 & Hy & Hhead & Hupd & Hpg).
  rewrite (Hpg "date") in Hdate by done.
  rewrite (dated_update_date _ _ _ _ Hupd) in Hdate.
  apply dated_update_undated in Hupd as ->; [|done].
  destruct (Page_init_content_attrs (splitext (basename name)).1 mt)
    as (_ & _ & Hi & Ht).
  exists items, self1. rewrite !Hpg by done.
  split; [done|]. split; [done|]. split; [done|]. split; [done|]. split.
  - case_bool_decide as Hf; [|done].
    by rewrite (apply_head_other _ _ _ _ _ _ Hf Hhead).
  - case_bool_decide as Hf; [|done].
    by rewrite (apply_head_other _ _ _ _ _ _ Hf Hhead).
Qed.

Lemma undated_page_id_template_witness :
  exists pg : Page,
    ContentPage sample_yaml (fun s => s) sample_parse_time default_site
      "content/hello.md" epoch "title: Hello" = Ok pg
    /\ truthy (attr pg "date") = false
    /\ exists (items : list (string * value)) (self : Page),
         sample_yaml (head_and_body "title: Hello").1 = VMap items
         /\ apply_head (fun s => s) sample_parse_time items
              (Page_init (VStr (splitext (basename "content/hello.md")).1) []
                 [("modified", VTime epoch)]) = Ok self
         /\ attr pg "id" = attr self "id"
         /\ attr pg "template" = attr self "template"
         /\ (if bool_decide (Forall (fun kv => norm_key kv.1 <> "id") items)
             then attr pg "id" = VStr (splitext (basename "content/hello.md")).1
             else True)
         /\ (if bool_decide (Forall (fun kv => norm_key kv.1 <> "template") items)
             then attr pg "template" = VStr "" else True).
Proof.
  assert (H : match ContentPage sample_yaml (fun s => s) sample_parse_time
                      default_site "content/hello.md" epoch "title: Hello" with
              | Ok pg => negb (truthy (attr pg "date"))
              | Raise _ => false
              end = true) by (vm_compute; reflexivity).
  destruct (ContentPage sample_yaml (fun s => s) sample_parse_time default_site
              "content/hello.md" epoch "title: Hello") as [pg|e] eqn:E;
    [|discriminate H].
  apply negb_true_iff in H.
  exists pg. split; [reflexivity|]. split; [exact H|].
  exact (undated_page_id_template sample_yaml (fun s => s) sample_parse_time
           default_site "content/hello.md" epoch "title: Hello" pg E H).
Defined.


(* ===================================================================== *)
(** * Further properties: the excerpt markers *)
(* ===================================================================== *)

Lemma contains_suffix sep a s :
  contains sep (a +:+ s) = false -> contains sep s = false.
Proof.
  induction a as [|c a IH]; [done|].
  change (String c a +:+ s) with (String c (a +:+ s)).
  rewrite contains_step. intros [_ H]%orb_false_iff. by apply IH.
Qed.

Lemma summary_sub_untouched markdown fuel body (self : Page) :
  contains "<summary>" body = false \/ contains "</summary>" body = false ->
  summary_sub markdown fuel body self = (body, self).
Proof.
  intros H. destruct fuel as [|fuel]; [done|]. cbn [summary_sub].
  destruct (partition "<summary>" body) as [[before rest]|] eqn:H1; [|done].
  destruct H as [H|H].
  - by rewrite (partition_absent _ _ H) in H1.
  - apply partition_first in H1 as [-> _].
    apply contains_suffix, contains_suffix in H.
    by rewrite (partition_absent _ _ H).
Qed.

(** X13. A body without an opening marker, or without a closing marker,
    is left as it is and sets no summary: an excerpt that is not closed
    stays in the content with its marker. *)
Theorem summary_needs_both_markers markdown (body : string) (self : Page) :
  contains "<summary>" body && contains "</summary>" body = false ->
  summary_sub markdown (String.length body) body self = (body, self).
Proof.
  intros H. apply summary_sub_untouched.
  by apply andb_false_iff in H.
Qed.

Lemma summary_needs_both_markers_witness :
  summary_sub (fun s => s) (String.length "<summary>Teaser. More.")
    "<summary>Teaser. More." (∅ : Page)
  = ("<summary>Teaser. More.", ∅).
Proof.
  apply (summary_needs_both_markers (fun s => s) "<summary>Teaser. More." ∅).
  reflexivity.
Defined.

Lemma partition_at x sep a rest :
  str_forall (fun c => negb (Ascii.eqb c x)) a = true ->
  partition (String x sep) (a +:+ String x sep +:+ rest) = Some (a, rest).
Proof.
  induction a as [|c a IH]; intros Ha.
  - change ("" +:+ ?t) with t. 
    destruct (String x sep +:+ rest) as [|d s] eqn:E; [done|].
    cbn [partition]. rewrite <- E, starts_with_app.
    by rewrite str_drop_app.
  - cbn [str_forall] in Ha. apply andb_true_iff in Ha as [Hc Ha].
    change (String c a +:+ ?t) with (String c (a +:+ t)).
    cbn [partition]. rewrite starts_with_step.
    rewrite (Ascii.eqb_sym x c). apply negb_true_iff in Hc. rewrite Hc.
    cbn [andb]. by rewrite (IH Ha).
Qed.

(** X14. A body with one excerpt, the text before it and the excerpt
    itself free of [<]: the markers are taken out, the excerpt stays in
    place without the whitespace around it, and its Markdown is stored
    as [summary]. The body is decoded text, so the whitespace is the one
    of [unicode.strip()]. *)
Theorem summary_single_excerpt markdown (a inner after : string) (self : Page) :
  no_angle a = true -> no_angle inner = true ->
  contains "<summary>" after = false ->
  let body := a +:+ "<summary>" +:+ inner +:+ "</summary>" +:+ after in
  summary_sub markdown (String.length body) body self
  = (a +:+ strip inner +:+ after,
     <["summary" := VStr (markdown (strip inner))]> self).
Proof.
  intros Ha Hi Hafter body.
  destruct (String.length body) as [|fuel] eqn:Hlen.
  { subst body. destruct a; discriminate Hlen. }
  cbn [summary_sub]. subst body.
  rewrite (partition_at "<" "summary>" a _ Ha).
  rewrite (partition_at "<" "/summary>" inner _ Hi).
  rewrite summary_sub_untouched by (by left). done.
Qed.

Lemma summary_single_excerpt_witness :
  summary_sub (fun s => s)
    (String.length ("Intro. " +:+ "<summary>" +:+ " Teaser. " +:+ "</summary>" +:+ " More."))
    ("Intro. " +:+ "<summary>" +:+ " Teaser. " +:+ "</summary>" +:+ " More.") (∅ : Page)
  = ("Intro. " +:+ strip " Teaser. " +:+ " More.",
     <["summary" := VStr (strip " Teaser. ")]> ∅).
Proof.
  apply (summary_single_excerpt (fun s => s) "Intro. " " Teaser. " " More." ∅);
    reflexivity.
Defined.

(** What is stripped from an excerpt: blanks, and also the unit
    separator U+001F and the no-break space U+00A0, which [str.strip()]
    would leave. *)
Example strip_unicode :
  strip " Teaser. " = "Teaser."
  /\ strip (String "031" ("Teaser" +:+ String "160" "")) = "Teaser"
  /\ strip (String "133" "a b") = "a b".
Proof. by vm_compute. Qed.

(* ===================================================================== *)
(** * Further properties: archive derivation *)
(* ===================================================================== *)

Lemma sorted_by_ext {A} (le le' : A -> A -> bool) (l : list A) :
  (forall x y, x ∈ l -> y ∈ l -> le x y = le' x y) ->
  sorted_by le l = sorted_by le' l.
Proof.
  induction l as [|x l IH]; intros H; [done|].
  cbn [sorted_by fold_right]. fold (sorted_by le l). fold (sorted_by le' l).
  rewrite <- IH by (intros; apply H; by right).
  assert (Hin : forall z, z ∈ sorted_by le l -> z ∈ l).
  { intros z. by rewrite sorted_by_perm. }
  revert Hin. generalize (sorted_by le l) as s.
  induction s as [|y s IHs]; intros Hin; [done|].
  cbn [insert_by]. rewrite (H x y) by (by left || (right; apply Hin; by left)).
  destruct (le' x y); [done|]. rewrite IHs; [done|]. intros z Hz. apply Hin. by right.
Qed.

Lemma link_posts_linked (chain : list loc) (st : state) h' :
  NoDup chain ->
  (forall p, p ∈ chain -> (p < length (heap st))%nat) ->
  link_posts (neighbours chain) st = (Ok tt, State h' (pages st)) ->
  linked (State h' (pages st)) chain.
Proof.
  intros Hnd Hvalid Hrun.
  destruct (link_posts_spec (neighbours chain) st)
    as (h'' & Hrun' & _ & _ & _ & Hlinks).
  rewrite Hrun in Hrun'. injection Hrun' as <-.
  unfold post_of in Hlinks. rewrite neighbours_posts in Hlinks.
  specialize (Hlinks Hnd).
  intros i p Hp. unfold deref. cbn [heap].
  apply Hlinks; [|apply Hvalid; by eapply list_elem_of_lookup_2].
  apply list_elem_of_lookup. exists i.
  destruct (neighbours_at chain i) as [_ ->]. by rewrite Hp.
Qed.

Lemma linked_ext st st' chain :
  (forall p, p ∈ chain -> deref st' p = deref st p) ->
  linked st chain -> linked st' chain.
Proof.
  intros Hext Hl i p Hp.
  rewrite (Hext p) by (by eapply list_elem_of_lookup_2). by apply Hl.
Qed.

Lemma year_archive_attrs site entries y :
  attr (year_archive site entries y) "entries" = VRefs entries
  /\ attr (year_archive site entries y) "template" = VStr "archive_year"
  /\ attr (year_archive site entries y) "title" = VInt y
  /\ attr (year_archive site entries y) "year" = VInt y
  /\ attr (year_archive site entries y) "date" = VNone.
Proof.
  unfold year_archive, Page_init, update, attr. cbn [fold_left fst snd py_str].
  repeat split; rewrite ?lookup_total_insert_ne by done; apply lookup_total_insert_eq.
Qed.

(** The loop over the years in full: with free ids, distinct years and
    lists of existing objects it completes; the registry keeps what it
    held and gains the archive page of every year; the posts of every
    year are linked in the order of their origin keys. *)
Lemma archive_years_full utcoffset site L :
  forall st,
  NoDup L.*1 ->
  (forall y ps, (y, ps) ∈ L -> pages st !! KStr (archive_id site y) = None) ->
  valid_years L (length (heap st)) ->
  exists st',
    archive_years utcoffset site L st = (Ok tt, st')
    /\ pages st ⊆ pages st'
    /\ (length (heap st) <= length (heap st'))%nat
    /\ (forall l k, (l < length (heap st))%nat ->
          k <> "prevpost" -> k <> "nextpost" ->
          attr (deref st' l) k = attr (deref st l) k)
    /\ (forall l, (forall y ps, (y, ps) ∈ L -> l ∉ ps) ->
          (l < length (heap st))%nat -> deref st' l = deref st l)
    /\ (consistent st -> consistent st')
    /\ (forall y posts, (y, posts) ∈ L ->
          (exists l, pages st' !! KStr (archive_id site y) = Some l
                     /\ deref st' l
                        = year_archive site (origin_sorted utcoffset st posts) y)
          /\ (NoDup posts ->
              (forall y' ps p, (y', ps) ∈ L -> y' <> y -> p ∈ posts -> p ∉ ps) ->
              linked st' (origin_sorted utcoffset st posts))).
Proof.
  induction L as [|[y0 ps0] L IH]; intros st Hnd Hfree Hvalid.
  - exists st. split; [done|]. split; [done|]. split; [done|]. split; [done|].
    split; [done|]. split; [done|]. intros y posts Hin. by apply elem_of_nil in Hin.
  - cbn [fmap list_fmap fst] in Hnd. apply NoDup_cons in Hnd as [Hy0 Hnd].
    assert (Hfree0 : pages st !! KStr (archive_id site y0) = None).
    { apply (Hfree y0 ps0). by left. }
    assert (Hyne : forall y ps, (y, ps) ∈ L -> y <> y0).
    { intros y ps Hin ->. apply Hy0. apply list_elem_of_fmap. by exists (y0, ps). }
    pose proof (archive_year_run utcoffset site y0 ps0 st Hfree0) as Hrun0.
    fold (origin_sorted utcoffset st ps0) in Hrun0.
    set (sorted0 := origin_sorted utcoffset st ps0) in *.
    set (st0 := State (heap st ++ [year_archive site sorted0 y0])
                      (<[KStr (archive_id site y0) := length (heap st)]> (pages st))) in *.
    destruct (link_posts_spec (neighbours sorted0) st0)
      as (h1 & Hlink & Hlen1 & Hframe1 & Hother1 & _).
    unfold st0 in Hlen1, Hframe1, Hother1.
    cbn [heap pages] in Hlink, Hlen1, Hframe1, Hother1.
    rewrite length_app in Hlen1. cbn [length] in Hlen1.
    set (st1 := State h1 (<[KStr (archive_id site y0) := length (heap st)]> (pages st))) in *.
    assert (Hstep : archive_year utcoffset site y0 ps0 st = (Ok tt, st1))
      by (by rewrite Hrun0).
    assert (Hsorted0 : forall p, p ∈ sorted0 <-> p ∈ ps0).
    { intros p. unfold sorted0, origin_sorted. by rewrite sorted_by_perm. }
    assert (Hv0 : forall p, p ∈ ps0 -> (p < length (heap st))%nat).
    { intros p Hp. apply (Hvalid y0 ps0 p); [by left|done]. }
    (* objects that exist before the turn *)
    assert (Hold : forall l, (l < length (heap st))%nat ->
                   (forall k, k <> "prevpost" -> k <> "nextpost" ->
                      attr (deref st1 l) k = attr (deref st l) k)
                   /\ (l ∉ ps0 -> deref st1 l = deref st l)).
    { intros l Hl. unfold deref, st1. cbn [heap]. split.
      - intros k Hk1 Hk2. rewrite (Hframe1 l k Hk1 Hk2).
        by rewrite lookup_total_app_l.
      - intros Hnot. rewrite Hother1; [by rewrite lookup_total_app_l|].
        unfold post_of. rewrite neighbours_posts. by rewrite Hsorted0. }
    assert (Harch : deref st1 (length (heap st)) = year_archive site sorted0 y0).
    { unfold deref, st1. cbn [heap]. rewrite Hother1.
      - by apply list_lookup_total_middle.
      - unfold post_of. rewrite neighbours_posts, Hsorted0.
        intros Hin. apply Hv0 in Hin. lia. }
    destruct (IH st1 Hnd) as (st' & Hrun & Hsub & Hlen & Hframe & Hother & Hcons & Hyears).
    { intros y ps Hin. unfold st1. cbn [pages].
      rewrite lookup_insert_ne.
      - apply (Hfree y ps). by right.
      - intros [= E%archive_id_inj]. by apply (Hyne y ps). }
    { intros y ps p Hin Hp. unfold st1. cbn [heap].
      specialize (Hvalid y ps p ltac:(by right) Hp). lia. }
    unfold st1 in Hsub, Hlen, Hframe, Hother.
    cbn [heap pages] in Hsub, Hlen, Hframe, Hother.
    fold st1 in Hframe, Hother.
    exists st'. split; [by rewrite (archive_years_step _ _ _ _ _ _ _ Hstep)|].
    split; [|split; [lia|split; [|split; [|split]]]].
    + etrans; [|exact Hsub]. by apply insert_subseteq.
    + intros l k Hl Hk1 Hk2. rewrite Hframe by (done || lia).
      by apply (Hold l Hl).
    + intros l Hnot Hl. rewrite Hother.
      * apply (Hold l Hl). apply (Hnot y0 ps0). by left.
      * intros y ps Hin. apply (Hnot y ps). by right.
      * lia.
    + intros Hc. apply Hcons. intros id l Hl.
      unfold st1 in Hl. cbn [pages] in Hl.
      assert (Hh1 : length (heap st1) = S (length (heap st)))
        by (unfold st1; cbn [heap]; lia).
      destruct (decide (KStr (archive_id site y0) = id)) as [<-|Hne].
      * rewrite lookup_insert_eq in Hl. injection Hl as <-.
        split; [lia|]. by rewrite Harch, archive_page_id.
      * rewrite lookup_insert_ne in Hl by done.
        destruct (Hc id l Hl) as [Hlt Hid]. split; [lia|].
        rewrite (proj1 (Hold l Hlt)) by done. exact Hid.
    + intros y posts Hin.
      assert (Hkeys : forall ps, (forall p, p ∈ ps -> (p < length (heap st))%nat) ->
                origin_sorted utcoffset st1 ps = origin_sorted utcoffset st ps).
      { intros ps Hps. apply sorted_by_ext. intros a b Ha Hb.
        rewrite (sortkey_origin_frame utcoffset (deref st1 a) (deref st a)),
                (sortkey_origin_frame utcoffset (deref st1 b) (deref st b));
          try done; apply Hold; auto. }
      apply elem_of_cons in Hin as [[= -> ->]|Hin].
      * split.
        -- exists (length (heap st)). split.
           ++ eapply lookup_weaken; [|exact Hsub]. apply lookup_insert_eq.
           ++ rewrite Hother; [done| |lia].
              intros y ps Hin Hl. specialize (Hvalid y ps _ ltac:(by right) Hl). lia.
        -- intros Hndp Hdisj. apply (linked_ext st1).
           ++ intros p Hp%Hsorted0. apply Hother; [|specialize (Hv0 p Hp); lia].
              intros y ps Hin. apply (Hdisj y ps p); [by right|by apply (Hyne y ps)|done].
           ++ apply (link_posts_linked sorted0 st0 h1); [| |done].
              ** unfold sorted0, origin_sorted. by rewrite sorted_by_perm.
              ** intros p Hp%Hsorted0. unfold st0. cbn [heap]. rewrite length_app.
                 specialize (Hv0 p Hp). lia.
      * destruct (Hyears y posts Hin) as [Ha Hl].
        assert (Hvp : forall p, p ∈ posts -> (p < length (heap st))%nat).
        { intros p Hp. apply (Hvalid y posts p); [by right|done]. }
        rewrite (Hkeys posts Hvp) in Ha, Hl.
        split; [done|]. intros Hndp Hdisj. apply Hl; [done|].
        intros y' ps p Hin' Hne Hp. apply (Hdisj y' ps p); [by right|done|done].
Qed.

Lemma derive_archives_full utcoffset site (years : gmap Z (list loc)) st :
  (forall y ps, years !! y = Some ps -> pages st !! KStr (archive_id site y) = None) ->
  (forall y ps p, years !! y = Some ps -> p ∈ ps -> (p < length (heap st))%nat) ->
  exists st',
    derive_archives utcoffset site years st = (Ok tt, st')
    /\ pages st ⊆ pages st'
    /\ (consistent st -> consistent st')
    /\ (forall y posts, years !! y = Some posts ->
          (exists l, pages st' !! KStr (archive_id site y) = Some l
                     /\ deref st' l
                        = year_archive site (origin_sorted utcoffset st posts) y)
          /\ (NoDup posts ->
              (forall y' ps p, years !! y' = Some ps -> y' <> y -> p ∈ posts -> p ∉ ps) ->
              linked st' (origin_sorted utcoffset st posts))).
Proof.
  intros Hfree Hvalid. unfold derive_archives.
  set (L := sorted_by _ (map_to_list years)).
  assert (HL : L ≡ₚ map_to_list years) by apply sorted_by_perm.
  assert (Hin : forall y' ps, (y', ps) ∈ L <-> years !! y' = Some ps).
  { intros y' ps. rewrite HL. apply elem_of_map_to_list. }
  destruct (archive_years_full utcoffset site L st)
    as (st' & Hrun & Hsub & _ & _ & _ & Hcons & Hyears).
  - rewrite HL. apply NoDup_fst_map_to_list.
  - intros y ps Hy. apply (Hfree y ps). by apply Hin.
  - intros y ps p Hy Hp. apply (Hvalid y ps p); [by apply Hin|done].
  - exists st'. split; [done|]. split; [done|]. split; [done|].
    intros y posts Hy. destruct (Hyears y posts) as [Ha Hl]; [by apply Hin|].
    split; [done|]. intros Hnd Hdisj. apply Hl; [done|].
    intros y' ps p Hy' Hne Hp. apply (Hdisj y' ps p); [by apply Hin|done|done].
Qed.

(** X15. For a year with any number of posts (each filed once, each
    under one year) the derivation completes, the ids of the year
    archives being free, and chains the posts of the year in the order
    of their origin keys: every post links to the one before it and the
    one after it, the first and the last to [None]. *)
Theorem archive_links (utcoffset : datetime -> Z) (site : Site)
    (years : gmap Z (list loc)) (st : state) (y : Z) (posts : list loc) :
  years !! y = Some posts ->
  NoDup posts ->
  filed years (length (heap st)) ->
  (forall y' ps, years !! y' = Some ps -> pages st !! KStr (archive_id site y') = None) ->
  exists st',
    derive_archives utcoffset site years st = (Ok tt, st')
    /\ linked st' (origin_sorted utcoffset st posts)
    /\ origin_sorted utcoffset st posts ≡ₚ posts.
Proof.
  intros Hy Hnd [Hvalid Hdisj] Hfree.
  destruct (derive_archives_full utcoffset site years st Hfree)
    as (st' & Hrun & _ & _ & Hyears).
  { intros y' ps p. apply Hvalid. }
  exists st'. split; [done|]. split; [|apply sorted_by_perm].
  apply (Hyears y posts Hy); [done|].
  intros y' ps p Hy' Hne Hp. by apply (Hdisj y y' posts ps p).
Qed.

Lemma years_2020_filed : filed years_2020 (length (heap posts_2020)).
Proof.
  unfold years_2020. split.
  - intros y ps l [<- <-]%lookup_singleton_Some Hl. cbn.
    rewrite !elem_of_cons, elem_of_nil in Hl. lia.
  - intros y y' ps ps' l Hne [<- _]%lookup_singleton_Some [<- _]%lookup_singleton_Some.
    done.
Qed.

Lemma years_2020_free y' ps :
  years_2020 !! y' = Some ps ->
  pages posts_2020 !! KStr (archive_id default_site y') = None.
Proof. unfold years_2020. intros [<- _]%lookup_singleton_Some. reflexivity. Qed.

Lemma archive_links_witness :
  exists st',
    derive_archives utc default_site years_2020 posts_2020 = (Ok tt, st')
    /\ linked st' (origin_sorted utc posts_2020 [0%nat; 1%nat; 2%nat])
    /\ origin_sorted utc posts_2020 [0%nat; 1%nat; 2%nat] ≡ₚ [0%nat; 1%nat; 2%nat].
Proof.
  apply (archive_links utc default_site years_2020 posts_2020 2020).
  - reflexivity.
  - apply (bool_decide_unpack _). vm_compute. exact I.
  - apply years_2020_filed.
  - apply years_2020_free.
Defined.

(** X16. After the derivation the registry holds, for every year with
    posts, an archive page under the id of the year: its entries are
    the posts of the year by rising origin key, its template is
    [archive_year], its title the year, and it has no date. What the
    registry held before is still there. *)
Theorem archive_pages_registered (utcoffset : datetime -> Z) (site : Site)
    (years : gmap Z (list loc)) (st : state) (y : Z) (posts : list loc) :
  years !! y = Some posts ->
  (forall y' ps p, years !! y' = Some ps -> p ∈ ps -> (p < length (heap st))%nat) ->
  (forall y' ps, years !! y' = Some ps -> pages st !! KStr (archive_id site y') = None) ->
  exists st' archive entries,
    derive_archives utcoffset site years st = (Ok tt, st')
    /\ pages st ⊆ pages st'
    /\ getitem st' (archive_id site y) = Ok archive
    /\ attr (deref st' archive) "entries" = VRefs entries
    /\ entries ≡ₚ posts
    /\ StronglySorted
         (fun a b => key_le (sortkey_origin utcoffset (deref st a))
                            (sortkey_origin utcoffset (deref st b)) = true)
         entries
    /\ attr (deref st' archive) "template" = VStr "archive_year"
    /\ attr (deref st' archive) "title" = VInt y
    /\ attr (deref st' archive) "date" = VNone.
Proof.
  intros Hy Hvalid Hfree.
  destruct (derive_archives_full utcoffset site years st Hfree Hvalid)
    as (st' & Hrun & Hsub & _ & Hyears).
  destruct (Hyears y posts Hy) as [(l & Hl & Hd) _].
  destruct (year_archive_attrs site (origin_sorted utcoffset st posts) y)
    as (He & Ht & Hti & _ & Hdate).
  exists st', l, (origin_sorted utcoffset st posts).
  rewrite Hd. split; [done|]. split; [done|].
  split; [unfold getitem; by rewrite Hl|].
  split; [done|]. split; [apply sorted_by_perm|].
  split; [|done].
  apply sorted_by_sorted.
  - intros a b. apply key_le_total.
  - intros a b c. apply key_le_trans.
Qed.

Lemma archive_pages_registered_witness :
  exists st' archive entries,
    derive_archives utc default_site years_2020 posts_2020 = (Ok tt, st')
    /\ pages posts_2020 ⊆ pages st'
    /\ getitem st' (archive_id default_site 2020) = Ok archive
    /\ attr (deref st' archive) "entries" = VRefs entries
    /\ entries ≡ₚ [0%nat; 1%nat; 2%nat]
    /\ StronglySorted
         (fun a b => key_le (sortkey_origin utc (deref posts_2020 a))
                            (sortkey_origin utc (deref posts_2020 b)) = true)
         entries
    /\ attr (deref st' archive) "template" = VStr "archive_year"
    /\ attr (deref st' archive) "title" = VInt 2020
    /\ attr (deref st' archive) "date" = VNone.
Proof.
  apply (archive_pages_registered utc default_site years_2020 posts_2020 2020).
  - reflexivity.
  - apply years_2020_filed.
  - apply years_2020_free.
Defined.

Lemma archive_years_raise utcoffset site y posts rest st e st' :
  archive_year utcoffset site y posts st = (Raise e, st') ->
  archive_years utcoffset site ((y, posts) :: rest) st = (Raise e, st').
Proof.
  intros H. cbn [archive_years]. unfold mbind, M_bind. by rewrite H.
Qed.

Lemma archive_years_taken utcoffset site L :
  forall st,
  NoDup L.*1 ->
  (exists y ps l, (y, ps) ∈ L /\ pages st !! KStr (archive_id site y) = Some l) ->
  exists y' ps' st',
    (y', ps') ∈ L
    /\ archive_years utcoffset site L st
       = (die ("duplicate page id: " +:+ archive_id site y'), st').
Proof.
  induction L as [|[y0 ps0] L IH]; intros st Hnd (y & ps & l & Hin & Htaken).
  - by apply elem_of_nil in Hin.
  - cbn [fmap list_fmap fst] in Hnd. apply NoDup_cons in Hnd as [Hy0 Hnd].
    destruct (pages st !! KStr (archive_id site y0)) as [l0|] eqn:E0.
    + destruct (archive_year_taken utcoffset site y0 ps0 st l0 E0) as [st' Hdie].
      exists y0, ps0, st'. split; [by left|]. by apply archive_years_raise.
    + destruct (archive_year_spec utcoffset site y0 ps0 st E0)
        as (h1 & Hrun1 & _).
      apply elem_of_cons in Hin as [[= -> ->]|Hin]; [congruence|].
      assert (Hne : y <> y0).
      { intros ->. apply Hy0. apply list_elem_of_fmap. by exists (y0, ps). }
      destruct (IH (State h1 (<[KStr (archive_id site y0) := length (heap st)]> (pages st))) Hnd)
        as (y' & ps' & st' & Hin' & Hrun).
      { exists y, ps, l. split; [done|]. cbn [pages].
        rewrite lookup_insert_ne; [done|]. by intros [= E%archive_id_inj]. }
      exists y', ps', st'. split; [by right|].
      by rewrite (archive_years_step _ _ _ _ _ _ _ Hrun1).
Qed.

(** X17. When the id of a year that has posts is already taken in the
    registry (an undated page named like the year), the archive
    derivation does not complete: the build dies with the duplicate-id
    message for the id of a year. *)
Theorem derive_archives_duplicate (utcoffset : datetime -> Z) (site : Site)
    (years : gmap Z (list loc)) (st : state) (y : Z) (posts : list loc) (l : loc) :
  years !! y = Some posts ->
  pages st !! KStr (archive_id site y) = Some l ->
  exists y' st',
    is_Some (years !! y')
    /\ derive_archives utcoffset site years st
       = (die ("duplicate page id: " +:+ archive_id site y'), st').
Proof.
  intros Hy Htaken. unfold derive_archives.
  set (L := sorted_by _ (map_to_list years)).
  assert (HL : L ≡ₚ map_to_list years) by apply sorted_by_perm.
  assert (Hin : forall y' ps, (y', ps) ∈ L <-> years !! y' = Some ps).
  { intros y' ps. rewrite HL. apply elem_of_map_to_list. }
  destruct (archive_years_taken utcoffset site L st)
    as (y' & ps' & st' & Hin' & Hrun).
  - rewrite HL. apply NoDup_fst_map_to_list.
  - exists y, posts, l. split; [by apply Hin|done].
  - exists y', st'. split; [|done]. exists ps'. by apply Hin.
Qed.

Lemma derive_archives_duplicate_witness :
  exists y' st',
    is_Some (years_one !! y')
    /\ derive_archives utc default_site years_one taken_2020
       = (die ("duplicate page id: " +:+ archive_id default_site y'), st').
Proof.
  apply (derive_archives_duplicate utc default_site years_one taken_2020 2020
           [0%nat] 1%nat); reflexivity.
Defined.

Lemma fmt_02d_month m :
  1 <= m <= 12 ->
  String.length (fmt_02d m) = 2%nat
  /\ fmt_02d m <> "" /\ no_slash (fmt_02d m) = true.
Proof.
  intros H.
  assert (m = 1 \/ m = 2 \/ m = 3 \/ m = 4 \/ m = 5 \/ m = 6 \/ m = 7 \/ m = 8
          \/ m = 9 \/ m = 10 \/ m = 11 \/ m = 12) as Hm by lia.
  repeat (destruct Hm as [->|Hm]); try subst m; by vm_compute.
Qed.

(** X18. The archive page of a month: for a month from 1 to 12 and a
    year from 1900 to 9999 its id is the year, a slash and the month in
    two digits, its template is [archive_month], its title the name of
    the month and the year, it holds the entries it was given and has no
    date. For a year outside that range the constructor of the date
    raises: [OverflowError] for a year that does not fit a C integer,
    [ValueError] for any other. For month 0 any year gives a page. *)
Theorem ArchivePage_month (site : Site) (entries : list loc) (y m : Z) :
  1 <= m <= 12 ->
  (if (1900 <=? y) && (y <=? 9999)
   then exists p : Page,
          ArchivePage site entries y m = Ok p
          /\ attr p "id" = VStr (py_str (VInt y) +:+ "/" +:+ fmt_02d m)
          /\ String.length (fmt_02d m) = 2%nat
          /\ attr p "template" = VStr "archive_month"
          /\ attr p "title"
             = VStr (month_names !!! Z.to_nat (m - 1) +:+ " " +:+ py_str (VInt y))
          /\ attr p "entries" = VRefs entries
          /\ attr p "date" = VNone
   else ArchivePage site entries y m
        = Raise (if fits_int y then ValueError else OverflowError))
  /\ ArchivePage site entries y 0 = Ok (year_archive site entries y).
Proof.
  intros Hm. split; [|done].
  destruct (fmt_02d_month m Hm) as (Hlen & Hne & Hns).
  unfold ArchivePage, strftime_BY.
  assert ((m =? 0) = false) as -> by (apply Z.eqb_neq; lia). cbn [negb].
  assert (fits_int m = true) as ->.
  { unfold fits_int. apply andb_true_iff. split; apply Z.leb_le; lia. }
  assert ((1 <=? m) = true) as -> by (apply Z.leb_le; lia).
  assert ((m <=? 12) = true) as -> by (apply Z.leb_le; lia).
  rewrite !andb_true_r.
  destruct ((1900 <=? y) && (y <=? 9999)) eqn:Hy.
  - apply andb_true_iff in Hy as [Hy1 Hy2]. apply Z.leb_le in Hy1, Hy2.
    assert (fits_int y = true) as ->.
    { unfold fits_int. apply andb_true_iff. split; apply Z.leb_le; lia. }
    assert ((1 <=? y) = true) as -> by (apply Z.leb_le; lia).
    assert ((y <=? 9999) = true) as -> by (apply Z.leb_le; lia).
    assert ((y <? 1900) = false) as -> by (apply Z.ltb_ge; lia).
    cbn [negb andb mbind outcome_bind].
    eexists. split; [reflexivity|].
    unfold Page_init, update, attr. cbn [fold_left fst snd py_str].
    rewrite join_url_year_id by (done || lia).
    repeat split; try done;
      rewrite ?lookup_total_insert_ne by done; by rewrite ?lookup_total_insert_eq.
  - destruct (fits_int y); [|done]. cbn [negb].
    destruct ((1 <=? y) && (y <=? 9999)) eqn:Hr; [|done]. cbn [negb].
    apply andb_true_iff in Hr as [Hr1 Hr2]. apply Z.leb_le in Hr1, Hr2.
    destruct (y <? 1900) eqn:Hlt; [done|]. apply Z.ltb_ge in Hlt.
    apply andb_false_iff in Hy as [Hy|Hy]; apply Z.leb_gt in Hy; lia.
Qed.

Lemma ArchivePage_month_witness :
  (exists p : Page,
     ArchivePage default_site [0%nat] 2020 6 = Ok p
     /\ attr p "id" = VStr (py_str (VInt 2020) +:+ "/" +:+ fmt_02d 6)
     /\ String.length (fmt_02d 6) = 2%nat
     /\ attr p "template" = VStr "archive_month"
     /\ attr p "title"
        = VStr (month_names !!! Z.to_nat (6 - 1) +:+ " " +:+ py_str (VInt 2020))
     /\ attr p "entries" = VRefs [0%nat]
     /\ attr p "date" = VNone)
  /\ ArchivePage default_site [0%nat] 2020 0 = Ok (year_archive default_site [0%nat] 2020).
Proof.
  apply (ArchivePage_month default_site [0%nat] 2020 6). lia.
Defined.

(** The years for which the constructor of the date raises. *)
Example ArchivePage_month_years :
  ArchivePage default_site [] 1899 6 = Raise ValueError
  /\ ArchivePage default_site [] 0 6 = Raise ValueError
  /\ ArchivePage default_site [] 10000 6 = Raise ValueError
  /\ ArchivePage default_site [] 2147483648 6 = Raise OverflowError.
Proof. by vm_compute. Qed.

(* ===================================================================== *)
(** * Further properties: the registry stays consistent *)
(* ===================================================================== *)

Lemma load_page_consistent yaml_load markdown parse_time site name mt text
    (years years' : gmap Z (list loc)) (st st' : state) :
  load_page yaml_load markdown parse_time site name mt text years st
  = (Ok years', st') ->
  consistent st -> consistent st'.
Proof.
  unfold load_page, mbind, M_bind, lift, alloc.
  destruct (ContentPage yaml_load markdown parse_time site name mt text)
    as [self|e]; [|done].
  pose proof (add_cases (length (heap st)) (State (heap st ++ [self]) (pages st)))
    as Hadd.
  rewrite deref_alloc in Hadd. cbn [heap pages] in Hadd.
  destruct (hash_key (attr self "id")) as [k|] eqn:Hk; [|by rewrite Hadd].
  destruct (pages st !! k) eqn:E; [by destruct Hadd as (e & -> & _)|].
  rewrite Hadd. intros H Hc.
  assert (st' = State (heap st ++ [self])
                      (<[k := length (heap st)]> (pages st))) as ->.
  { destruct (attr self "date"); by injection H as <- <-. }
  intros id l Hl. cbn [pages heap] in *. rewrite length_app. cbn [length].
  destruct (decide (k = id)) as [<-|Hne].
  - rewrite lookup_insert_eq in Hl. injection Hl as <-.
    split; [lia|]. by rewrite deref_alloc.
  - rewrite lookup_insert_ne in Hl by done.
    destruct (Hc id l Hl) as [Hlt Hid]. split; [lia|].
    unfold deref in *. cbn [heap]. by rewrite lookup_total_app_l.
Qed.

(** X19. The registry stays consistent through the build: when every
    entry is an existing object filed under its own id, this still holds
    after a turn of the content loop and after the archive derivation
    (the links written onto the posts change no id). *)
Theorem registry_consistent (utcoffset : datetime -> Z) (site : Site)
    (years : gmap Z (list loc)) (st : state) :
  consistent st ->
  (forall y ps p, years !! y = Some ps -> p ∈ ps -> (p < length (heap st))%nat) ->
  (forall y ps, years !! y = Some ps -> pages st !! KStr (archive_id site y) = None) ->
  (exists st', derive_archives utcoffset site years st = (Ok tt, st')
               /\ consistent st')
  /\ forall yaml_load markdown parse_time name mt text years' st',
       load_page yaml_load markdown parse_time site name mt text years st
       = (Ok years', st') ->
       consistent st'.
Proof.
  intros Hc Hvalid Hfree. split.
  - destruct (derive_archives_full utcoffset site years st Hfree Hvalid)
      as (st' & Hrun & _ & Hcons & _).
    exists st'. split; [done|]. by apply Hcons.
  - intros ???????? H. by eapply load_page_consistent.
Qed.

Lemma posts_2020_consistent : consistent posts_2020.
Proof.
  intros id l Hl. unfold posts_2020 in *. cbn [pages heap] in *.
  apply lookup_insert_Some in Hl as [[<- <-]|[_ Hl]];
    [split; [cbn; lia|reflexivity]|].
  apply lookup_insert_Some in Hl as [[<- <-]|[_ Hl]];
    [split; [cbn; lia|reflexivity]|].
  apply lookup_singleton_Some in Hl as [<- <-].
  split; [cbn; lia|reflexivity].
Qed.

Lemma registry_consistent_witness :
  (exists st', derive_archives utc default_site years_2020 posts_2020 = (Ok tt, st')
               /\ consistent st')
  /\ forall yaml_load markdown parse_time name mt text years' st',
       load_page yaml_load markdown parse_time default_site name mt text
         years_2020 posts_2020 = (Ok years', st') ->
       consistent st'.
Proof.
  apply (registry_consistent utc default_site years_2020 posts_2020).
  - apply posts_2020_consistent.
  - apply years_2020_filed.
  - apply years_2020_free.
Defined.

Lemma sorted_unique {A} (R : A -> A -> Prop) (l1 : list A) :
  forall l2,
  StronglySorted R l1 -> StronglySorted R l2 -> l1 ≡ₚ l2 ->
  (forall x y, x ∈ l1 -> y ∈ l1 -> R x y -> R y x -> x = y) ->
  l1 = l2.
Proof.
  induction l1 as [|x l1 IH]; intros l2 H1 H2 Hp Hanti.
  - by apply Permutation_nil_l in Hp.
  - destruct l2 as [|y l2]; [by apply Permutation_nil_r in Hp|].
    inversion H1 as [|?? H1' Hx]; subst. inversion H2 as [|?? H2' Hy]; subst.
    rewrite Forall_forall in Hx, Hy.
    assert (x = y) as ->.
    { assert (Hxin : x ∈ y :: l2) by (rewrite <- Hp; by left).
      assert (Hyin : y ∈ x :: l1) by (rewrite Hp; by left).
      apply elem_of_cons in Hxin as [->|Hxin]; [done|].
      apply elem_of_cons in Hyin as [->|Hyin]; [done|].
      apply Hanti; [by left|by right| |].
      - by apply Hx.
      - by apply Hy. }
    f_equal. apply IH; try done.
    + by apply Permutation_cons_inv in Hp.
    + intros a b Ha Hb. apply Hanti; by right.
Qed.

Lemma key_le_antisym a b : key_le a b = true -> key_le b a = true -> a = b.
Proof.
  unfold key_le. rewrite !orb_true_iff, !andb_true_iff, !Z.ltb_lt, !Z.eqb_eq.
  destruct a as [t s], b as [t' s']. cbn [fst snd].
  intros [H1|[H1 S1]] [H2|[H2 S2]]; try lia.
  f_equal; [done|]. by apply String.leb_antisym.
Qed.

Lemma registered_elem st l :
  l ∈ registered st <-> exists k, pages st !! k = Some l.
Proof.
  unfold registered. rewrite list_elem_of_fmap. split.
  - intros ([id l'] & -> & Hin). exists id. by apply elem_of_map_to_list.
  - intros [id Hid]. exists (id, l). split; [done|]. by apply elem_of_map_to_list.
Qed.

Lemma posts_2020_string_ids : string_ids posts_2020.
Proof.
  intros k l Hl. unfold posts_2020 in *. cbn [pages] in *.
  apply lookup_insert_Some in Hl as [[<- _]|[_ Hl]]; [by eexists|].
  apply lookup_insert_Some in Hl as [[<- _]|[_ Hl]]; [by eexists|].
  apply lookup_singleton_Some in Hl as [<- _]. by eexists.
Qed.

(** X20. In a consistent registry whose ids are strings, as they are
    when a listing is made, the listing does not depend on the order in
    which the dictionary hands out its pages: sorting any arrangement of
    the registered pages gives the result of [all], because no two pages
    have the same sort key. *)
Theorem all_order_independent (utcoffset : datetime -> Z) (st : state)
    (sortby_origin : bool) (l : list loc) :
  consistent st ->
  string_ids st ->
  l ≡ₚ registered st ->
  let sortkey := if sortby_origin then sortkey_origin utcoffset
                 else sortkey_posted utcoffset in
  sorted_by (fun a b => key_le (sortkey (deref st a)) (sortkey (deref st b))) l
  = all utcoffset st sortby_origin.
Proof.
  intros Hc Hs Hp sortkey. unfold all. fold sortkey. fold (registered st).
  assert (Htot : forall x y : loc,
            key_le (sortkey (deref st x)) (sortkey (deref st y)) = true
            \/ key_le (sortkey (deref st y)) (sortkey (deref st x)) = true).
  { intros x y. apply key_le_total. }
  assert (Htr : forall x y z : loc,
            key_le (sortkey (deref st x)) (sortkey (deref st y)) = true ->
            key_le (sortkey (deref st y)) (sortkey (deref st z)) = true ->
            key_le (sortkey (deref st x)) (sortkey (deref st z)) = true).
  { intros x y z. apply key_le_trans. }
  assert (Hid : forall k x, pages st !! k = Some x -> k = KStr (page_id (deref st x))).
  { intros k x Hx. destruct (Hs k x Hx) as [s ->].
    destruct (Hc _ x Hx) as [_ Hk]. unfold page_id.
    destruct (attr (deref st x) "id") as [| [] | | | | | | | |]; try discriminate Hk.
    by injection Hk as ->. }
  apply (sorted_unique
           (fun a b => key_le (sortkey (deref st a)) (sortkey (deref st b)) = true)).
  - by apply sorted_by_sorted.
  - by apply sorted_by_sorted.
  - by rewrite !sorted_by_perm.
  - intros x y Hx Hy Hxy Hyx.
    rewrite sorted_by_perm, Hp in Hx, Hy.
    apply registered_elem in Hx as [kx Hx]. apply registered_elem in Hy as [ky Hy].
    pose proof (Hid kx x Hx) as Hix. pose proof (Hid ky y Hy) as Hiy.
    pose proof (key_le_antisym _ _ Hxy Hyx) as E.
    assert (page_id (deref st x) = page_id (deref st y)) as Eid.
    { subst sortkey. destruct sortby_origin;
        unfold sortkey_origin, sortkey_posted in E; by injection E. }
    rewrite Eid in Hix. subst kx ky. congruence.
Qed.

Lemma all_order_independent_witness :
  sorted_by (fun a b => key_le (sortkey_posted utc (deref posts_2020 a))
                               (sortkey_posted utc (deref posts_2020 b)))
            (rev (registered posts_2020))
  = all utc posts_2020 false.
Proof.
  apply (all_order_independent utc posts_2020 false (rev (registered posts_2020))).
  - apply posts_2020_consistent.
  - apply posts_2020_string_ids.
  - symmetry. apply Permutation_rev.
Defined.

(* ===================================================================== *)
(** * Further properties: what the synchronizer writes *)
(* ===================================================================== *)

Section SyncWrites.

Variable excludes includes : string -> bool.
Variable lessc : string -> string + string.
Variable utime : Z -> Z.
Variable site : Site.
Variable deploy_path : string.

Local Abbreviation step := (sync_file excludes includes lessc utime site deploy_path).
Local Abbreviation steps := (sync_files excludes includes lessc utime site deploy_path).
Local Abbreviation line := (printed site deploy_path).

(** One turn either passes the file over, or writes its destination and
    prints its line. *)
Lemma sync_file_cases now e fs fs' out :
  step now e fs = Ok (fs', out) ->
  (out = [] /\ fs' = fs)
  \/ (out = [line e]
      /\ skipped excludes includes e.2 = false
      /\ exists s d, fs !! src_of e = Some s
                     /\ fs' = <[dest_of site deploy_path e := d]> fs
                     /\ ((splitext e.2).2 <> ".less" ->
                         d = File (utime (mtime s)) (content s))).
Proof.
  unfold sync_file.
  destruct (skipped excludes includes e.2) eqn:Hsk; [intros [= <- <-]; by left|].
  destruct (fs !! src_of e) as [s|] eqn:Hsrc; [|done].
  destruct (match fs !! dest_of site deploy_path e with
            | Some d => mtime s <=? mtime d
            | None => false
            end); [intros [= <- <-]; by left|].
  intros (fs1 & Hact & [= <- <-])%bind_Ok_inv. right.
  split; [done|]. split; [done|].
  unfold run_action in Hact. case_decide as Hext.
  - destruct (lessc (content s)) as [css|err]; [|done]. injection Hact as <-.
    exists s, (File now css). by repeat split.
  - injection Hact as <-. exists s, (File (utime (mtime s)) (content s)).
    by repeat split.
Qed.

Lemma sync_files_writes now l :
  forall fs fs' out,
  steps now l fs = Ok (fs', out) ->
  sublist out (map line (List.filter (fun e => negb (skipped excludes includes e.2)) l))
  /\ (forall p, p ∉ out.*2 -> fs' !! p = fs !! p)
  /\ (forall p, p ∈ out.*2 -> is_Some (fs' !! p)).
Proof.
  induction l as [|e l IH]; intros fs fs' out H.
  - injection H as <- <-. split; [constructor|]. split; [done|].
    intros p Hp. by apply elem_of_nil in Hp.
  - apply sync_files_cons in H as (fs1 & out1 & fs2 & out2 & H1 & H2 & [= -> ->]).
    destruct (IH fs1 fs2 out2 H2) as (Hsub & Hframe & Hex).
    destruct (sync_file_cases now e fs fs1 out1 H1)
      as [[-> ->]|(-> & Hsk & s & d & Hsrc & -> & _)].
    + cbn [app List.filter map]. split; [|by split].
      destruct (negb (skipped excludes includes e.2)); [|done].
      cbn [map]. by constructor.
    + cbn [List.filter]. rewrite Hsk. cbn [negb map app].
      split; [by constructor|]. split.
      * intros p Hp. cbn [fmap list_fmap] in Hp.
        apply not_elem_of_cons in Hp as [Hne Hp].
        rewrite (Hframe p Hp). by rewrite lookup_insert_ne.
      * intros p Hp. cbn [fmap list_fmap] in Hp.
        destruct (decide (p ∈ out2.*2)) as [Hin|Hnot]; [by apply Hex|].
        apply elem_of_cons in Hp as [->|Hp]; [|done].
        rewrite (Hframe _ Hnot). cbn [printed snd]. by rewrite lookup_insert_eq.
Qed.

End SyncWrites.



(* ===================================================================== *)
(** * Further properties: page addresses *)
(* ===================================================================== *)



(** The address of the index page, with and without clean URLs. *)
Example url_index :
  url default_site (Page_init (VStr "index") [] []) = "/.html"
  /\ url clean_site (Page_init (VStr "index") [] []) = "/".
Proof. by vm_compute. Qed.
